(** * bugzilla/_authfiles.py: credential and configuration files

    A shallow embedding of the helpers of [bugzilla/_authfiles.py]:
    [_parse_hostname], [_default_location], [_BugzillaRCFile],
    [_BugzillaTokenCache], [_save_api_key] and [_BugzillaCookieCache].

    The module works through four library interfaces, which are modelled
    here by their documented behaviour:
    - [urlparse] follows the splitting algorithm of [urllib.parse]
      (scheme, netloc, path, params, query, fragment); its rejection of
      malformed bracketed hosts is not modelled;
    - [ConfigParser] is a two-level mapping (a DEFAULT mapping and named
      sections) over ordinary section names; the text syntax of the file
      is abstracted into the parsed mapping, and value interpolation
      (the percent syntax) and the parser's argument validation are not
      modelled;
    - [MozillaCookieJar] is the set of cookies identified by
      (domain, path, name) together with the bound file name;
    - [os] is a file system of regular files and directories with modes.
      Errors of the operating system other than a missing file are not
      modelled. *)

From Stdlib Require Import Ascii String ZArith.
From stdpp Require Import gmap strings list sorting.

Local Open Scope string_scope.

(** ** Strings as Python uses them *)

Module PyStr.

Fixpoint contains (c : ascii) (s : string) : bool :=
  match s with
  | "" => false
  | String a s' => Ascii.eqb a c || contains c s'
  end.

(** [s.partition(c)] on a present separator: text before and after the
    first [c]. *)
Fixpoint break (c : ascii) (s : string) : option (string * string) :=
  match s with
  | "" => None
  | String a s' =>
      if Ascii.eqb a c then Some ("", s')
      else match break c s' with
           | Some (l, r) => Some (String a l, r)
           | None => None
           end
  end.

(** Text before and after the last [c]. *)
Fixpoint rbreak (c : ascii) (s : string) : option (string * string) :=
  match s with
  | "" => None
  | String a s' =>
      match rbreak c s' with
      | Some (l, r) => Some (String a l, r)
      | None => if Ascii.eqb a c then Some ("", s') else None
      end
  end.

Fixpoint all (f : ascii → bool) (s : string) : bool :=
  match s with
  | "" => true
  | String a s' => f a && all f s'
  end.

Fixpoint map (f : ascii → ascii) (s : string) : string :=
  match s with
  | "" => ""
  | String a s' => String (f a) (map f s')
  end.

Fixpoint startswith (p s : string) : bool :=
  match p, s with
  | "", _ => true
  | String a p', String b s' => Ascii.eqb a b && startswith p' s'
  | String _ _, "" => false
  end.

(** [p in s] for two strings. *)
Fixpoint infix (p s : string) : bool :=
  startswith p s ||
  match s with
  | "" => false
  | String _ s' => infix p s'
  end.

(** Truth value of a string: the empty string is false. *)
Definition truthy (s : string) : bool :=
  match s with "" => false | _ => true end.

Definition is_upper (c : ascii) : bool :=
  (65 <=? nat_of_ascii c)%nat && (nat_of_ascii c <=? 90)%nat.
Definition is_lower (c : ascii) : bool :=
  (97 <=? nat_of_ascii c)%nat && (nat_of_ascii c <=? 122)%nat.
Definition is_alpha (c : ascii) : bool := is_upper c || is_lower c.
Definition is_digit (c : ascii) : bool :=
  (48 <=? nat_of_ascii c)%nat && (nat_of_ascii c <=? 57)%nat.
Definition is_space (c : ascii) : bool :=
  (nat_of_ascii c =? 32)%nat ||
  (9 <=? nat_of_ascii c)%nat && (nat_of_ascii c <=? 13)%nat ||
  (28 <=? nat_of_ascii c)%nat && (nat_of_ascii c <=? 31)%nat.

Definition to_lower (c : ascii) : ascii :=
  if is_upper c then ascii_of_nat (nat_of_ascii c + 32) else c.
Definition lower : string → string := map to_lower.

Fixpoint lstrip (s : string) : string :=
  match s with
  | "" => ""
  | String a s' => if is_space a then lstrip s' else s
  end.

(** [s.rstrip()]: the text up to the last character that is not white
    space. *)
Fixpoint rstrip (s : string) : string :=
  match s with
  | "" => ""
  | String a s' =>
      match rstrip s' with
      | "" => if is_space a then "" else String a ""
      | r => String a r
      end
  end.

Definition strip (s : string) : string := rstrip (lstrip s).

(** [s.rstrip('/')]. *)
Fixpoint rstrip_char (c : ascii) (s : string) : string :=
  match s with
  | "" => ""
  | String a s' =>
      match rstrip_char c s' with
      | "" => if Ascii.eqb a c then "" else String a ""
      | r => String a r
      end
  end.

End PyStr.

(** ** [urllib.parse.urlparse] *)

Module Url.

Record ParseResult := {
  scheme : string;
  netloc : string;
  path : string;
  params : string;
  query : string;
  fragment : string
}.

Definition scheme_char (c : ascii) : bool :=
  PyStr.is_alpha c || PyStr.is_digit c || PyStr.contains c "+-.".

(** A leading [scheme:] is split off when it starts with a letter and
    consists of scheme characters only. *)
Definition split_scheme (url : string) : string * string :=
  match PyStr.break ":" url with
  | Some (String c0 pre, rest) =>
      if PyStr.is_alpha c0 && PyStr.all scheme_char (String c0 pre)
      then (PyStr.lower (String c0 pre), rest)
      else ("", url)
  | _ => ("", url)
  end.

(** [_splitnetloc]: the netloc runs up to the first of [/], [?], [#]. *)
Fixpoint span_netloc (s : string) : string * string :=
  match s with
  | "" => ("", "")
  | String c s' =>
      if PyStr.contains c "/?#" then ("", s)
      else let '(n, r) := span_netloc s' in (String c n, r)
  end.

Definition split_netloc (url : string) : string * string :=
  match url with
  | String "/" (String "/" rest) => span_netloc rest
  | _ => ("", url)
  end.

Definition split_first (c : ascii) (url : string) : string * string :=
  match PyStr.break c url with
  | Some (l, r) => (l, r)
  | None => (url, "")
  end.

Definition uses_params : list string :=
  [""; "ftp"; "hdl"; "prospero"; "http"; "imap"; "https"; "shttp";
   "rtsp"; "rtspu"; "sip"; "sips"; "mms"; "sftp"; "tel"].

(** [_splitparams]: parameters start at the first [;] of the last path
    segment. *)
Definition splitparams (url : string) : string * string :=
  match PyStr.rbreak "/" url with
  | Some (dir, last) =>
      match PyStr.break ";" last with
      | Some (l, r) => (dir +:+ "/" +:+ l, r)
      | None => (url, "")
      end
  | None => split_first ";" url
  end.

Definition urlparse (url : string) : ParseResult :=
  let '(sch, url1) := split_scheme url in
  let '(nl, url2) := split_netloc url1 in
  let '(url3, frag) := split_first "#" url2 in
  let '(url4, qry) := split_first "?" url3 in
  let '(pth, prm) :=
    if bool_decide (sch ∈ uses_params) && PyStr.contains ";" url4
    then splitparams url4 else (url4, "") in
  {| scheme := sch; netloc := nl; path := pth; params := prm;
     query := qry; fragment := frag |}.

End Url.

(** [_parse_hostname]: [netloc or path]. *)
Definition _parse_hostname (url : string) : string :=
  let parsedbits := Url.urlparse url in
  if PyStr.truthy (Url.netloc parsedbits) then Url.netloc parsedbits
  else Url.path parsedbits.

(** ** Exceptions and results *)

Inductive exn :=
| AttributeError (what : string)
| ValueError (what : string)
| OSError (path : string)
| NoSectionError (section : string)
| NoOptionError (option section : string)
| DuplicateSectionError (section : string)
| ParsingError (path : string)
| LoadError (path : string)
| BugzillaError (msg : string).

Inductive res (A : Type) :=
| Ok (a : A)
| Raise (e : exn).
Arguments Ok {A} a.
Arguments Raise {A} e.

#[global] Instance res_ret : MRet res := λ A a, Ok a.
#[global] Instance res_bind : MBind res := λ A B f m,
  match m with
  | Ok a => f a
  | Raise e => Raise e
  end.

(** ** [ConfigParser] *)

Module ConfigParser.

(** The parsed content: the DEFAULT mapping and the named sections. *)
Record t := {
  dflt : gmap string string;
  sects : gmap string (gmap string string)
}.

(** [ConfigParser()] *)
Definition new : t := {| dflt := ∅; sects := ∅ |}.

(** Option names are case-insensitive: they are stored in lower case. *)
Definition optionxform : string → string := PyStr.lower.

Definition defaults (c : t) : gmap string string := dflt c.

(** [sections()], DEFAULT not included. *)
Definition sections (c : t) : list string := (map_to_list (sects c)).*1.

Definition add_section (c : t) (section : string) : res t :=
  match sects c !! section with
  | Some _ => Raise (DuplicateSectionError section)
  | None => Ok {| dflt := dflt c; sects := <[section := ∅]> (sects c) |}
  end.

(** An option is looked up in its section first and in DEFAULT next. *)
Definition has_option (c : t) (section option : string) : bool :=
  match sects c !! section with
  | None => false
  | Some d =>
      bool_decide (is_Some (d !! optionxform option)) ||
      bool_decide (is_Some (dflt c !! optionxform option))
  end.

Definition get (c : t) (section option : string) : res string :=
  match sects c !! section with
  | None => Raise (NoSectionError section)
  | Some d =>
      match (d ∪ dflt c) !! optionxform option with
      | Some v => Ok v
      | None => Raise (NoOptionError option section)
      end
  end.

Definition set (c : t) (section option value : string) : res t :=
  match sects c !! section with
  | None => Raise (NoSectionError section)
  | Some d =>
      Ok {| dflt := dflt c;
            sects := <[section := <[optionxform option := value]> d]>
                       (sects c) |}
  end.

(** Only the section's own entry is removed, never the DEFAULT one. *)
Definition remove_option (c : t) (section option : string) : res t :=
  match sects c !! section with
  | None => Raise (NoSectionError section)
  | Some d =>
      Ok {| dflt := dflt c;
            sects := <[section := delete (optionxform option) d]>
                       (sects c) |}
  end.

(** [items(section)]: the section's options over the DEFAULT ones. *)
Definition items (c : t) (section : string) : res (gmap string string) :=
  match sects c !! section with
  | None => Raise (NoSectionError section)
  | Some d => Ok (d ∪ dflt c)
  end.

(** Reading one more file into the parser: the file's options override
    the ones already present, section by section. *)
Definition update (c file : t) : t :=
  {| dflt := dflt file ∪ dflt c;
     sects := union_with (λ new old, Some (new ∪ old))
                (sects file) (sects c) |}.

End ConfigParser.

(** ** Cookies *)

Record Cookie := {
  domain : string;
  cpath : string;
  name : string;
  value : string;
  expires : option Z;
  discard : bool
}.

(** ** The file system *)

(** The text of a file is abstracted into what its two readers make of
    it: the mapping [ConfigParser] parses from it, and the cookies
    [MozillaCookieJar] loads from it; [None] where the reader rejects the
    text. *)
Record file := {
  fmode : Z;
  as_ini : option ConfigParser.t;
  as_cookies : option (list Cookie)
}.

Record World := {
  files : gmap string file;
  dirs : gmap string Z;          (* directories and their modes *)
  home : string;                 (* the home directory of the user *)
  now : Z;                       (* the clock, in seconds *)
  writes : list string;          (* paths opened for writing, latest first *)
  stdout : list string           (* lines printed, latest first *)
}.

(** Computations that use the file system and may raise. *)
Definition M (A : Type) : Type := World → res A * World.

#[global] Instance M_ret : MRet M := λ A a w, (Ok a, w).
#[global] Instance M_bind : MBind M := λ A B f m w,
  match m w with
  | (Ok a, w') => f a w'
  | (Raise e, w') => (Raise e, w')
  end.

Definition lift {A} (r : res A) : M A := λ w, (r, w).
Definition raise {A} (e : exn) : M A := λ w, (Raise e, w).
Definition ask : M World := λ w, (Ok w, w).
Definition modify (f : World → World) : M unit := λ w, (Ok tt, f w).

Definition with_files (f : gmap string file → gmap string file) (w : World)
    : World :=
  {| files := f (files w); dirs := dirs w; home := home w; now := now w;
     writes := writes w; stdout := stdout w |}.

Definition with_dirs (f : gmap string Z → gmap string Z) (w : World)
    : World :=
  {| files := files w; dirs := f (dirs w); home := home w; now := now w;
     writes := writes w; stdout := stdout w |}.

Definition log_write (p : string) (w : World) : World :=
  {| files := files w; dirs := dirs w; home := home w; now := now w;
     writes := p :: writes w; stdout := stdout w |}.

(** [print] *)
Definition print (line : string) : M unit :=
  modify (λ w,
    {| files := files w; dirs := dirs w; home := home w; now := now w;
       writes := writes w; stdout := line :: stdout w |}).

Module Os.

Definition mode_0o600 : Z := 384.
Definition mode_0o700 : Z := 448.
Definition mode_0o666 : Z := 438.
Definition mode_0o777 : Z := 511.

(** [os.path.exists] *)
Definition exists_ (w : World) (p : string) : bool :=
  bool_decide (is_Some (files w !! p)) ||
  bool_decide (is_Some (dirs w !! p)).

(** [os.path.expanduser]: a leading [~] is replaced by the home
    directory; [~user] forms are left as they are. *)
Definition expanduser (w : World) (p : string) : string :=
  match p with
  | String "~" rest =>
      match rest with
      | "" | String "/" _ =>
          match PyStr.rstrip_char "/" (home w) +:+ rest with
          | "" => "/"
          | r => r
          end
      | _ => p
      end
  | _ => p
  end.

(** [os.path.dirname]: the text up to the last slash, without trailing
    slashes unless it consists of slashes only. *)
Definition dirname (p : string) : string :=
  match PyStr.rbreak "/" p with
  | None => ""
  | Some (head, _) =>
      match PyStr.rstrip_char "/" head with
      | "" => head +:+ "/"
      | h => h
      end
  end.

(** The missing ancestors of a directory, created with the default
    mode. *)
Fixpoint make_parents (fuel : nat) (w : World) (d : string)
    (ds : gmap string Z) : gmap string Z :=
  match fuel with
  | O => ds
  | S n =>
      if PyStr.truthy d && negb (exists_ w d)
      then <[d := mode_0o777]> (make_parents n w (dirname d) ds)
      else ds
  end.

(** [os.makedirs(name, mode)] *)
Definition makedirs (name : string) (mode : Z) : M unit :=
  modify (λ w,
    with_dirs (λ ds, <[name := mode]>
      (make_parents (String.length name) w (dirname name) ds)) w).

(** Writing the whole of a file: an existing file keeps its mode, a new
    one gets the default mode. *)
Definition write (p : string) (ini : option ConfigParser.t)
    (cks : option (list Cookie)) : M unit :=
  modify (λ w,
    let m := match files w !! p with
             | Some f => fmode f
             | None => mode_0o666
             end in
    log_write p
      (with_files
         (insert p {| fmode := m; as_ini := ini; as_cookies := cks |}) w)).

(** [open(p, 'a').close()]: creates an empty file when there is none. *)
Definition touch (p : string) : M unit :=
  modify (λ w,
    match files w !! p with
    | Some _ => w
    | None =>
        with_files
          (insert p {| fmode := mode_0o666; as_ini := Some ConfigParser.new;
                       as_cookies := None |}) w
    end).

(** [os.chmod] *)
Definition chmod (p : string) (mode : Z) : M unit :=
  modify (with_files
    (alter (λ f, {| fmode := mode; as_ini := as_ini f;
                    as_cookies := as_cookies f |}) p)).

End Os.

(** ** Sectioned files on disk *)

Module IniFile.

(** [cfg.read(filenames)]: every file that can be opened is parsed and
    merged into the parser, in the order given; the files read are
    returned. A file that cannot be opened is skipped. *)
Fixpoint read (w : World) (c : ConfigParser.t) (filenames : list string)
    : res (ConfigParser.t * list string) :=
  match filenames with
  | [] => Ok (c, [])
  | p :: rest =>
      match files w !! p with
      | None => read w c rest
      | Some f =>
          match as_ini f with
          | None => Raise (ParsingError p)
          | Some d =>
              '(c', read_ok) ← read w (ConfigParser.update c d) rest;
              Ok (c', p :: read_ok)
          end
      end
  end.

(** [with open(p, 'w') as f: cfg.write(f)] *)
Definition write (c : ConfigParser.t) (p : string) : M unit :=
  Os.write p (Some c) None.

End IniFile.

(** ** Default locations *)

(** [_default_location(filename, kind)] *)
Definition _default_location (filename kind : string) : M string :=
  w ← ask;
  let homepath := Os.expanduser w ("~/." +:+ filename) in
  let xdgpath :=
    Os.expanduser w ("~/." +:+ kind +:+ "/python-bugzilla/" +:+ filename) in
  if Os.exists_ w xdgpath then mret xdgpath
  else if Os.exists_ w homepath then mret homepath
  else
    (if negb (Os.exists_ w (Os.dirname xdgpath))
     then Os.makedirs (Os.dirname xdgpath) Os.mode_0o700
     else mret tt) ;;
    mret xdgpath.

Definition _default_cache_location (filename : string) : M string :=
  _default_location filename "cache".

Definition _default_config_location (filename : string) : M string :=
  _default_location filename "config".

(** ** [_BugzillaRCFile] *)

(** The argument of [set_configpaths]: nothing, one path or a list. *)
Inductive paths_arg :=
| NoPaths
| OnePath (p : string)
| PathList (l : list string).

(** [configpaths or []] *)
Definition or_empty (a : paths_arg) : paths_arg :=
  match a with
  | NoPaths => PathList []
  | OnePath p => if PyStr.truthy p then OnePath p else PathList []
  | PathList l => PathList l
  end.

(** Modelled from the spec: [_util.listify] is not among the sources; a
    candidate path sequence is an ordered sequence of paths, so a single
    path stands for the one-element sequence and a list for itself. *)
Definition listify (a : paths_arg) : list string :=
  match a with
  | NoPaths => []
  | OnePath p => [p]
  | PathList l => l
  end.

Module _BugzillaRCFile.

Record t := {
  _cfg : ConfigParser.t;
  _configpaths : list string
}.

Definition get_default_configpaths : list string :=
  ["/etc/bugzillarc"; "~/.bugzillarc";
   "~/.config/python-bugzilla/bugzillarc"].

Definition set_configpaths (self : t) (configpaths : paths_arg) : M t :=
  w ← ask;
  let configpaths := Os.expanduser w <$> listify (or_empty configpaths) in
  '(cfg, read_files) ← lift (IniFile.read w ConfigParser.new configpaths);
  mret {| _cfg := cfg; _configpaths := configpaths |}.

Definition __init__ : M t :=
  set_configpaths {| _cfg := ConfigParser.new; _configpaths := [] |} NoPaths.

Definition get_configpaths (self : t) : list string := _configpaths self.

Definition get_default_url (self : t) : option string :=
  ConfigParser.defaults (_cfg self) !! "url".

(** [sorted(names)] on strings: ascending in the order of the
    characters' codes. *)
Definition sorted (names : list string) : list string :=
  merge_sort String.le names.

(** One round of the loop of [parse]: the value of [section] after the
    body, for the section name [sectionhost]. *)
Definition parse_step (url urlhost sectionhost section : string) : string :=
  if negb (PyStr.contains "/" sectionhost)
  then (if String.eqb sectionhost urlhost then sectionhost else section)
  else if PyStr.infix sectionhost url then sectionhost
  else section.

(** The loop of [parse], left at the first round after which [section]
    is true. *)
Fixpoint parse_loop (url urlhost : string) (names : list string)
    (section : string) : string :=
  match names with
  | [] => section
  | sectionhost :: rest =>
      let section := parse_step url urlhost sectionhost section in
      if PyStr.truthy section then section
      else parse_loop url urlhost rest section
  end.

Definition parse (self : t) (url : string) : res (gmap string string) :=
  let urlhost := _parse_hostname url in
  let section :=
    parse_loop url urlhost
      (sorted (ConfigParser.sections (_cfg self))) "" in
  if negb (PyStr.truthy section) then Ok ∅
  else ConfigParser.items (_cfg self) section.

End _BugzillaRCFile.

(** ** [_BugzillaTokenCache] *)

Module _BugzillaTokenCache.

Record t := {
  _filename : option string;
  _cfg : option ConfigParser.t
}.

Definition with_cfg (self : t) (c : ConfigParser.t) : t :=
  {| _filename := _filename self; _cfg := Some c |}.

Definition get_default_path : M string :=
  _default_cache_location "bugzillatoken".

Definition __init__ : t := {| _filename := None; _cfg := None |}.

(** [self._cfg], which is [None] until [set_filename] has run: the
    methods of the parser are then missing. *)
Definition the_cfg (self : t) : res ConfigParser.t :=
  match _cfg self with
  | Some c => Ok c
  | None =>
      Raise (AttributeError "'NoneType' object has no attribute 'sections'")
  end.

Definition _get_domain (self : t) (url : string) : res (string * t) :=
  let domain := Url.netloc (Url.urlparse url) in
  c ← the_cfg self;
  if negb (bool_decide (domain ∈ ConfigParser.sections c))
  then c' ← ConfigParser.add_section c domain;
       Ok (domain, with_cfg self c')
  else Ok (domain, self).

Definition get_value (self : t) (url : string)
    : res (option string * t) :=
  '(domain, self) ← _get_domain self url;
  c ← the_cfg self;
  if ConfigParser.has_option c domain "token"
  then v ← ConfigParser.get c domain "token"; Ok (Some v, self)
  else Ok (None, self).

(** Truth value of [self._filename]. *)
Definition filename_set (filename : option string) : option string :=
  match filename with
  | Some p => if PyStr.truthy p then Some p else None
  | None => None
  end.

Definition set_value (self : t) (url : string) (value : option string)
    : M t :=
  '(current, self) ← lift (get_value self url);
  if bool_decide (current = value) then mret self
  else
    '(domain, self) ← lift (_get_domain self url);
    c ← lift (the_cfg self);
    c' ← lift (match value with
               | None => ConfigParser.remove_option c domain "token"
               | Some v => ConfigParser.set c domain "token" v
               end);
    let self := with_cfg self c' in
    match filename_set (_filename self) with
    | Some p => IniFile.write c' p ;; mret self
    | None => mret self
    end.

Definition get_filename (self : t) : option string := _filename self.

Definition set_filename (self : t) (filename : option string) : M t :=
  w ← ask;
  '(cfg, _) ← lift (match filename_set filename with
                    | Some p => IniFile.read w ConfigParser.new [p]
                    | None => Ok (ConfigParser.new, [])
                    end);
  mret {| _filename := filename; _cfg := Some cfg |}.

End _BugzillaTokenCache.

(** ** [_save_api_key] *)

(** The file written by [_save_api_key]: [configpaths[0]] when there is
    one, the default location of [bugzillarc] otherwise. *)
Definition config_destination (configpaths : list string) : M string :=
  match configpaths with
  | p :: _ => mret p
  | [] => _default_config_location "bugzillarc"
  end.

Definition _save_api_key (url api_key : string) (configpaths : list string)
    : M unit :=
  config_filename ← config_destination configpaths;
  let section := _parse_hostname url in
  w ← ask;
  '(cfg, _) ← lift (IniFile.read w ConfigParser.new [config_filename]);
  cfg ← lift (if negb (bool_decide (section ∈ ConfigParser.sections cfg))
              then ConfigParser.add_section cfg section
              else Ok cfg);
  cfg ← lift (ConfigParser.set cfg section "api_key" (PyStr.strip api_key));
  IniFile.write cfg config_filename ;;
  print ("API key written to " +:+ config_filename).

(** ** [MozillaCookieJar] *)

Module MozillaCookieJar.

Record t := {
  filename : option string;
  jar : gmap (string * string * string) Cookie
}.

(** [MozillaCookieJar(filename)] *)
Definition new (filename : option string) : t :=
  {| filename := filename; jar := ∅ |}.

(** [set_cookie]: a cookie replaces the one of the same domain, path
    and name. *)
Definition set_cookie (cj : t) (c : Cookie) : t :=
  {| filename := filename cj;
     jar := <[(domain c, cpath c, name c) := c]> (jar cj) |}.

Definition is_expired (now : Z) (c : Cookie) : bool :=
  match expires c with
  | Some e => bool_decide (e ≤ now)%Z
  | None => false
  end.

(** Session cookies and expired cookies are neither saved nor loaded. *)
Definition kept (now : Z) (c : Cookie) : bool :=
  negb (discard c) && negb (is_expired now c).

(** [save()] *)
Definition save (cj : t) : M unit :=
  match filename cj with
  | None => raise (ValueError "a filename was not supplied")
  | Some p =>
      w ← ask;
      let cks := filter (λ c, kept (now w) c = true)
                   ((map_to_list (jar cj)).*2) in
      Os.write p (match cks with
                  | [] => Some ConfigParser.new
                  | _ => None
                  end) (Some cks)
  end.

(** [load()] *)
Definition load (cj : t) : M t :=
  match filename cj with
  | None => raise (ValueError "a filename was not supplied")
  | Some p =>
      w ← ask;
      match files w !! p with
      | None => raise (OSError p)
      | Some f =>
          match as_cookies f with
          | None => raise (LoadError p)
          | Some cks =>
              mret (foldl set_cookie cj
                      (filter (λ c, kept (now w) c = true) cks))
          end
      end
  end.

End MozillaCookieJar.

(** ** [_BugzillaCookieCache] *)

Module _BugzillaCookieCache.

Record t := { _cookiejar : option MozillaCookieJar.t }.

Definition get_default_path : M string :=
  _default_cache_location "bugzillacookies".

Definition __init__ : t := {| _cookiejar := None |}.

(** [try: cj.load() except LoadError: raise BugzillaError(...)] *)
Definition load_or_complain (cj : MozillaCookieJar.t) (cookiefile : string)
    : M MozillaCookieJar.t :=
  λ w, match MozillaCookieJar.load cj w with
       | (Raise (LoadError _), w') =>
           (Raise (BugzillaError
              ("cookiefile=" +:+ cookiefile +:+ " not in Mozilla format")),
            w')
       | r => r
       end.

Definition _build_cookiejar (cookiefile : option string)
    : M MozillaCookieJar.t :=
  let cj := MozillaCookieJar.new cookiefile in
  match cookiefile with
  | None => mret cj
  | Some p =>
      w ← ask;
      if negb (Os.exists_ w p)
      then Os.touch p ;; Os.chmod p Os.mode_0o600 ;;
           MozillaCookieJar.save cj ;; mret cj
      else load_or_complain cj p
  end.

Definition set_filename (self : t) (cookiefile : option string) : M t :=
  cj ← _build_cookiejar cookiefile;
  mret {| _cookiejar := Some cj |}.

Definition get_filename (self : t) : res (option string) :=
  match _cookiejar self with
  | Some cj => Ok (MozillaCookieJar.filename cj)
  | None =>
      Raise (AttributeError "'NoneType' object has no attribute 'filename'")
  end.

Definition get_cookiejar (self : t) : option MozillaCookieJar.t :=
  _cookiejar self.

Definition set_cookies (self : t) (cookies : list Cookie) : M t :=
  match _cookiejar self with
  | None => mret self
  | Some cj =>
      let cj := foldl MozillaCookieJar.set_cookie cj cookies in
      let self := {| _cookiejar := Some cj |} in
      match MozillaCookieJar.filename cj with
      | Some _ => MozillaCookieJar.save cj ;; mret self
      | None => mret self
      end
  end.

End _BugzillaCookieCache.

(** ** Section matching in [parse] *)

Module MatchSpec.

(** The rule in the words of the specification. *)
Definition has_separator (name : string) : Prop :=
  ∃ l r, name = l +:+ String "/" r.

Definition substring_of (name url : string) : Prop :=
  ∃ l r, url = l +:+ name +:+ r.

Definition section_matches (url name : string) : Prop :=
  (¬ has_separator name ∧ name = _parse_hostname url) ∨
  (has_separator name ∧ substring_of name url).

(** The test as the loop of [parse] computes it. *)
Definition matchb (url name : string) : bool :=
  if negb (PyStr.contains "/" name)
  then String.eqb name (_parse_hostname url)
  else PyStr.infix name url.

End MatchSpec.

(** ** Sample data *)

Module Sample.

Definition cfg : ConfigParser.t :=
  {| ConfigParser.dflt := {[ "url" := "http://a.com" ]};
     ConfigParser.sects :=
       {[ "a.com" := {[ "user" := "u1" ]};
          "a.com/sub" := {[ "user" := "u2" ]} ]} |}.

Definition rc : _BugzillaRCFile.t :=
  {| _BugzillaRCFile._cfg := cfg; _BugzillaRCFile._configpaths := [] |}.

(** A machine without files. *)
Definition world : World :=
  {| files := ∅; dirs := {[ "/home/u" := Os.mode_0o777 ]};
     home := "/home/u"; now := 0; writes := []; stdout := [] |}.

(** A file that neither reader accepts. *)
Definition garbled : file :=
  {| fmode := 420; as_ini := None; as_cookies := None |}.

(** A machine whose cookie file is garbled. *)
Definition world_garbled : World :=
  {| files := {[ "/home/u/.bugzillacookies" := garbled ]};
     dirs := {[ "/home/u" := Os.mode_0o777 ]};
     home := "/home/u"; now := 0; writes := []; stdout := [] |}.

(** A parser holding a token for the host [h]. *)
Definition cfg_h : ConfigParser.t :=
  {| ConfigParser.dflt := ∅;
     ConfigParser.sects := {[ "h" := {[ "token" := "tok" ]} ]} |}.

(** A machine with both the old and the new token file. *)
Definition world_both : World :=
  {| files :=
       {[ "/home/u/.bugzillatoken" :=
            {| fmode := 384; as_ini := Some cfg_h; as_cookies := None |};
          "/home/u/.cache/python-bugzilla/bugzillatoken" :=
            {| fmode := 384; as_ini := Some ConfigParser.new;
               as_cookies := None |} ]};
     dirs := {[ "/home/u" := Os.mode_0o777;
                "/home/u/.cache" := Os.mode_0o777;
                "/home/u/.cache/python-bugzilla" := Os.mode_0o700 ]};
     home := "/home/u"; now := 0; writes := []; stdout := [] |}.

(** A machine with two of the default configuration files, both with a
    section for the host [h]. *)
Definition etc_rc : ConfigParser.t :=
  {| ConfigParser.dflt := ∅;
     ConfigParser.sects :=
       {[ "h" := {[ "user" := "etc"; "product" := "Fedora" ]} ]} |}.

Definition home_rc : ConfigParser.t :=
  {| ConfigParser.dflt := ∅;
     ConfigParser.sects :=
       {[ "h" := {[ "user" := "home"; "password" := "pw" ]} ]} |}.

Definition world_rc : World :=
  {| files :=
       {[ "/etc/bugzillarc" :=
            {| fmode := 420; as_ini := Some etc_rc; as_cookies := None |};
          "/home/u/.bugzillarc" :=
            {| fmode := 384; as_ini := Some home_rc; as_cookies := None |}
       ]};
     dirs := {[ "/etc" := Os.mode_0o777; "/home/u" := Os.mode_0o777 ]};
     home := "/home/u"; now := 0; writes := []; stdout := [] |}.

(** The two files merged, the second over the first. *)
Definition merged_rc : ConfigParser.t :=
  {| ConfigParser.dflt := ∅;
     ConfigParser.sects :=
       {[ "h" := {[ "user" := "home"; "password" := "pw";
                    "product" := "Fedora" ]} ]} |}.

(** The store that holds the first file only. *)
Definition rc_etc : _BugzillaRCFile.t :=
  {| _BugzillaRCFile._cfg := etc_rc; _BugzillaRCFile._configpaths := [] |}.

Definition rc_new : _BugzillaRCFile.t :=
  {| _BugzillaRCFile._cfg := ConfigParser.new;
     _BugzillaRCFile._configpaths := [] |}.

(** A token cache whose DEFAULT section supplies a token. *)
Definition token_cache_default : _BugzillaTokenCache.t :=
  {| _BugzillaTokenCache._filename := Some "/home/u/.bugzillatoken";
     _BugzillaTokenCache._cfg :=
       Some {| ConfigParser.dflt := {[ "token" := "fallback" ]};
               ConfigParser.sects := {[ "h" := {[ "token" := "tok" ]} ]}
            |} |}.

(** A token cache without a file, holding nothing. *)
Definition token_cache : _BugzillaTokenCache.t :=
  {| _BugzillaTokenCache._filename := None;
     _BugzillaTokenCache._cfg := Some ConfigParser.new |}.

(** A token cache bound to a file, holding a token for the host [h]. *)
Definition token_cache_h : _BugzillaTokenCache.t :=
  {| _BugzillaTokenCache._filename := Some "/home/u/.bugzillatoken";
     _BugzillaTokenCache._cfg := Some cfg_h |}.

End Sample.

(** ** Reading the state of a parser and of a file *)

(** The parser with a section of the given name, created empty when it is
    missing: the effect of the test-and-[add_section] idiom. *)
Definition ensure_section (c : ConfigParser.t) (section : string)
    : ConfigParser.t :=
  match ConfigParser.sects c !! section with
  | Some _ => c
  | None =>
      {| ConfigParser.dflt := ConfigParser.dflt c;
         ConfigParser.sects := <[section := ∅]> (ConfigParser.sects c) |}
  end.

(** The value a section itself holds for an option. *)
Definition own_option (c : ConfigParser.t) (section key : string)
    : option string :=
  ConfigParser.sects c !! section ≫= λ opts, opts !! key.

(** The value read for an option of a section: its own, else DEFAULT's. *)
Definition read_option (c : ConfigParser.t) (section key : string)
    : option string :=
  ConfigParser.sects c !! section ≫= λ opts,
    (opts ∪ ConfigParser.dflt c) !! key.

(** What [ConfigParser] reads from a path: nothing from a missing file. *)
Definition ini_content (w : World) (p : string) : option ConfigParser.t :=
  match files w !! p with
  | None => Some ConfigParser.new
  | Some f => as_ini f
  end.

(** The section key of the token cache for a URL. *)
Definition token_domain (url : string) : string :=
  Url.netloc (Url.urlparse url).

(** The parser after [set_value] has stored or removed the token of an
    existing section. *)
Definition store_token (c : ConfigParser.t) (section : string)
    (value : option string) : ConfigParser.t :=
  let opts := default ∅ (ConfigParser.sects c !! section) in
  {| ConfigParser.dflt := ConfigParser.dflt c;
     ConfigParser.sects :=
       <[section := match value with
                    | None => delete "token" opts
                    | Some v => <["token" := v]> opts
                    end]> (ConfigParser.sects c) |}.

(** The two candidate paths of [_default_location]. *)
Definition homepath (w : World) (filename : string) : string :=
  Os.expanduser w ("~/." +:+ filename).

Definition xdgpath (w : World) (filename kind : string) : string :=
  Os.expanduser w ("~/." +:+ kind +:+ "/python-bugzilla/" +:+ filename).

(** The value that the file at a path gives to an option of a section. *)
Definition file_option (w : World) (p section key : string)
    : option string :=
  files w !! p ≫= λ f, as_ini f ≫= λ d, own_option d section key.

(** The value given to an option by the last file of a list that sets
    it. *)
Fixpoint last_setting (w : World) (paths : list string)
    (section key : string) : option string :=
  match paths with
  | [] => None
  | p :: rest =>
      match last_setting w rest section key with
      | Some v => Some v
      | None => file_option w p section key
      end
  end.

(** The parser after [_save_api_key] has set the key of a host. *)
Definition with_api_key (c : ConfigParser.t) (host api_key : string)
    : ConfigParser.t :=
  {| ConfigParser.dflt := ConfigParser.dflt c;
     ConfigParser.sects :=
       <[host := <["api_key" := PyStr.strip api_key]>
                   (default ∅ (ConfigParser.sects c !! host))]>
         (ConfigParser.sects c) |}.

(** ** Agreement of a token cache with its file *)

(** Two parsers that give every option the same value. They may differ
    in sections that hold nothing. *)
Definition agrees (c d : ConfigParser.t) : Prop :=
  ConfigParser.dflt c = ConfigParser.dflt d ∧
  ∀ section key, own_option c section key = own_option d section key.

(** The token cache is bound to a file whose content gives every option
    the value the cache has in memory. *)
Definition synced (self : _BugzillaTokenCache.t) (w : World) : Prop :=
  ∃ p c d,
    _BugzillaTokenCache.filename_set (_BugzillaTokenCache._filename self)
      = Some p ∧
    _BugzillaTokenCache._cfg self = Some c ∧
    ini_content w p = Some d ∧
    agrees c d.

(** ** Defaults of several files *)

(** The value that the file at a path gives to an option of DEFAULT. *)
Definition file_default (w : World) (p key : string) : option string :=
  files w !! p ≫= λ f, as_ini f ≫= λ d, ConfigParser.dflt d !! key.

(** The value given to an option of DEFAULT by the last file of a list
    that sets it. *)
Fixpoint last_default (w : World) (paths : list string) (key : string)
    : option string :=
  match paths with
  | [] => None
  | p :: rest =>
      match last_default w rest key with
      | Some v => Some v
      | None => file_default w p key
      end
  end.

(** The paths of a list that name a file, after expansion of the home
    directory. *)
Definition existing (w : World) (paths : list string) : list string :=
  filter (λ p, is_Some (files w !! Os.expanduser w p)) paths.

(** ** More sample data *)

Module Sample2.

(** A machine with two configuration files that both give a default
    URL. *)
Definition world_urls : World :=
  {| files :=
       {[ "/etc/bugzillarc" :=
            {| fmode := 420;
               as_ini := Some {| ConfigParser.dflt :=
                                   {[ "url" := "https://etc.example" ]};
                                 ConfigParser.sects := ∅ |};
               as_cookies := None |};
          "/home/u/.bugzillarc" :=
            {| fmode := 384;
               as_ini := Some {| ConfigParser.dflt :=
                                   {[ "url" := "https://home.example" ]};
                                 ConfigParser.sects := ∅ |};
               as_cookies := None |} ]};
     dirs := {[ "/etc" := Os.mode_0o777; "/home/u" := Os.mode_0o777 ]};
     home := "/home/u"; now := 0; writes := []; stdout := [] |}.

(** The store that holds the second sample file only. *)
Definition rc_home : _BugzillaRCFile.t :=
  {| _BugzillaRCFile._cfg := Sample.home_rc;
     _BugzillaRCFile._configpaths := ["/home/u/.bugzillarc"] |}.

End Sample2.

Module Sample3.

(** A store whose only section is named by a host and a path. *)
Definition cfg_path : ConfigParser.t :=
  {| ConfigParser.dflt := ∅;
     ConfigParser.sects := {[ "a.com/bugs" := {[ "api_key" := "K" ]} ]} |}.

Definition rc_path : _BugzillaRCFile.t :=
  {| _BugzillaRCFile._cfg := cfg_path; _BugzillaRCFile._configpaths := [] |}.

End Sample3.

(** ** Cookie jars and their files *)

(** The identity of a cookie in a jar. *)
Definition cookie_key (c : Cookie) : string * string * string :=
  (domain c, cpath c, name c).

(** The last cookie of a sequence that has a given identity. *)
Definition last_cookie (k : string * string * string)
    (cookies : list Cookie) : option Cookie :=
  last (filter (λ c, cookie_key c = k) cookies).

(** Every cookie of a jar is stored under its identity. *)
Definition well_keyed (m : gmap (string * string * string) Cookie) : Prop :=
  ∀ k c, m !! k = Some c → k = cookie_key c.

(** The cookies of a jar that [save] writes at a given time. *)
Definition saved_jar (now : Z) (m : gmap (string * string * string) Cookie)
    : gmap (string * string * string) Cookie :=
  filter (λ kc, MozillaCookieJar.kept now kc.2 = true) m.

(** The cookie file that [save] writes for an empty jar. *)
Definition empty_cookiefile (mode : Z) : file :=
  {| fmode := mode; as_ini := Some ConfigParser.new; as_cookies := Some [] |}.

(** The cookie file that [save] writes for a jar, over a file of a given
    mode. *)
Definition cookiefile_of (mode now : Z) (cj : MozillaCookieJar.t) : file :=
  let cks := filter (λ c, MozillaCookieJar.kept now c = true)
               ((map_to_list (MozillaCookieJar.jar cj)).*2) in
  {| fmode := mode;
     as_ini := match cks with [] => Some ConfigParser.new | _ => None end;
     as_cookies := Some cks |}.

(** The world when the clock shows a given time. *)
Definition at_time (t : Z) (w : World) : World :=
  {| files := files w; dirs := dirs w; home := home w; now := t;
     writes := writes w; stdout := stdout w |}.

Module Sample4.

Definition sid : Cookie :=
  {| domain := "x.com"; cpath := "/"; name := "sid"; value := "123";
     expires := Some 1000%Z; discard := false |}.

Definition sid' : Cookie :=
  {| domain := "x.com"; cpath := "/"; name := "sid"; value := "456";
     expires := Some 1000%Z; discard := false |}.

(** A cookie that ends with the session. *)
Definition tmp : Cookie :=
  {| domain := "x.com"; cpath := "/"; name := "tmp"; value := "t";
     expires := None; discard := true |}.

(** A cache bound to a file name, with one cookie in its jar. *)
Definition cache : _BugzillaCookieCache.t :=
  {| _BugzillaCookieCache._cookiejar :=
       Some {| MozillaCookieJar.filename := Some "/home/u/.bugzillacookies";
               MozillaCookieJar.jar := {[ cookie_key sid := sid ]} |} |}.

(** A machine with a cookie file of mode 0640 that holds one cookie. *)
Definition world_cookies : World :=
  {| files := {[ "/home/u/.bugzillacookies" :=
                   {| fmode := 416; as_ini := None;
                      as_cookies := Some [sid] |} ]};
     dirs := {[ "/home/u" := Os.mode_0o777 ]};
     home := "/home/u"; now := 0; writes := []; stdout := [] |}.

End Sample4.

(** ** Plain URLs *)

(** A host name as it is written in a URL: not empty and without the
    characters that end or split a network location. *)
Definition plain_host (h : string) : Prop :=
  h ≠ "" ∧ PyStr.all (λ c, negb (PyStr.contains c ":/?#;")) h = true.

(** A scheme: a letter followed by letters, digits, [+], [-] and [.]. *)
Definition valid_scheme (s : string) : Prop :=
  match s with
  | "" => False
  | String c0 _ =>
      PyStr.is_alpha c0 = true ∧ PyStr.all Url.scheme_char s = true
  end.

(** What follows the host in a URL: nothing, or a path, a query or a
    fragment. *)
Definition url_tail (rest : string) : Prop :=
  match rest with
  | "" => True
  | String c _ => PyStr.contains c "/?#" = true
  end.

(** * Properties *)

(** ** Strings *)

Section string_facts.

Lemma str_app_nil_l (s : string) : "" +:+ s = s.
Proof. reflexivity. Qed.

Lemma str_app_cons (a : ascii) (l s : string) :
  String a l +:+ s = String a (l +:+ s).
Proof. reflexivity. Qed.

Lemma contains_true c s :
  PyStr.contains c s = true ↔ ∃ l r, s = l +:+ String c r.
Proof.
  induction s as [|a s IH]; simpl.
  - split; [done|]. intros (l & r & H). destruct l; discriminate H.
  - rewrite orb_true_iff, IH. split.
    + intros [H|(l & r & ->)].
      * apply Ascii.eqb_eq in H as ->. by exists "", s.
      * by exists (String a l), r.
    + intros ([|b l] & r & H).
      * rewrite str_app_nil_l in H. simplify_eq. left. apply Ascii.eqb_refl.
      * rewrite str_app_cons in H. simplify_eq. right. eauto.
Qed.

Lemma startswith_true p s :
  PyStr.startswith p s = true ↔ ∃ r, s = p +:+ r.
Proof.
  revert s. induction p as [|a p IH]; intros s; simpl.
  - split; eauto.
  - destruct s as [|b s].
    + split; [done|]. by intros (r & ?).
    + rewrite andb_true_iff, IH, Ascii.eqb_eq. split.
      * intros (-> & r & ->). eauto.
      * intros (r & H). rewrite str_app_cons in H. simplify_eq. eauto.
Qed.

Lemma infix_true p s :
  PyStr.infix p s = true ↔ ∃ l r, s = l +:+ p +:+ r.
Proof.
  induction s as [|a s IH]; simpl.
  - rewrite orb_false_r, startswith_true. split.
    + intros (r & ->). by exists "", r.
    + intros (l & r & H). destruct l; [eauto|discriminate H].
  - rewrite orb_true_iff, IH, startswith_true. split.
    + intros [(r & ->)|(l & r & ->)].
      * by exists "", r.
      * by exists (String a l), r.
    + intros ([|b l] & r & H).
      * left. eauto.
      * right. rewrite str_app_cons in H. simplify_eq. eauto.
Qed.

Lemma truthy_true s : PyStr.truthy s = true ↔ s ≠ "".
Proof. by destruct s. Qed.

End string_facts.

(** ** [_parse_hostname] *)

Example parse_hostname_schemed :
  _parse_hostname "http://example.com/a/b?x=1" = "example.com".
Proof. reflexivity. Qed.

Example parse_hostname_bare : _parse_hostname "example.com" = "example.com".
Proof. reflexivity. Qed.


(** ** [ConfigParser] facts *)

Section parser_facts.

Lemma elem_of_sections (c : ConfigParser.t) (s : string) :
  s ∈ ConfigParser.sections c ↔ is_Some (ConfigParser.sects c !! s).
Proof.
  unfold ConfigParser.sections. rewrite list_elem_of_fmap. split.
  - intros ([k d] & -> & H). apply elem_of_map_to_list in H. eauto.
  - intros [d H]. exists (s, d). split; [done|].
    by apply elem_of_map_to_list.
Qed.

Lemma items_section (c : ConfigParser.t) (s : string) opts :
  ConfigParser.sects c !! s = Some opts →
  ConfigParser.items c s = Ok (opts ∪ ConfigParser.dflt c).
Proof. unfold ConfigParser.items. by intros ->. Qed.

End parser_facts.

(** ** Section matching in [parse] *)

Module Matching.
Import MatchSpec.

Lemma matchb_true url name :
  matchb url name = true ↔ section_matches url name.
Proof.
  unfold matchb, section_matches, has_separator, substring_of.
  rewrite <- contains_true, <- infix_true.
  destruct (PyStr.contains "/" name); simpl.
  - split; [by right|]. by intros [[[] _]|[_ ?]].
  - rewrite String.eqb_eq. split; [by left|]. by intros [[_ ?]|[? _]].
Qed.

Lemma parse_step_empty url name :
  _BugzillaRCFile.parse_step url (_parse_hostname url) name "" =
  if matchb url name then name else "".
Proof.
  unfold _BugzillaRCFile.parse_step, matchb.
  by destruct (PyStr.contains "/" name).
Qed.

(** The loop returns the first name of the list that matches. *)
Lemma parse_loop_find url names :
  "" ∉ names →
  _BugzillaRCFile.parse_loop url (_parse_hostname url) names "" =
  default "" (head (filter (λ n, matchb url n = true) names)).
Proof.
  induction names as [|n names IH]; intros Hne; [done|].
  cbn [_BugzillaRCFile.parse_loop]. rewrite parse_step_empty, filter_cons.
  apply not_elem_of_cons in Hne as [Hn Hne].
  destruct (matchb url n) eqn:Hm.
  - rewrite decide_True by done. simpl.
    destruct n; [done|]. done.
  - rewrite decide_False by congruence. simpl. auto.
Qed.

Lemma sorted_elem names n : n ∈ _BugzillaRCFile.sorted names ↔ n ∈ names.
Proof. unfold _BugzillaRCFile.sorted. by rewrite merge_sort_Permutation. Qed.

(** In a sorted list the first element that passes a test is below
    every other one that does. *)
Lemma head_filter_least (P : string → bool) names n :
  StronglySorted String.le names →
  head (filter (λ x, P x = true) names) = Some n →
  n ∈ names ∧ P n = true ∧ ∀ m, m ∈ names → P m = true → String.le n m.
Proof.
  induction 1 as [|x l Hl IH Hx]; [done|].
  rewrite filter_cons. destruct (decide (P x = true)) as [Hp|Hp]; simpl.
  - intros [= ->]. split_and!; [left|done|].
    intros m [->|Hm]%elem_of_cons _; [done|].
    rewrite Forall_forall in Hx. auto.
  - intros (Hn & Hpn & Hmin)%IH. split_and!; [by right|done|].
    intros m [->|Hm]%elem_of_cons Hpm; [done|auto].
Qed.

Lemma head_filter_none (P : string → bool) (names : list string) :
  head (filter (λ x, P x = true) names) = None ↔
  ∀ m, m ∈ names → P m = false.
Proof.
  rewrite head_None. split.
  - intros Hf m Hm. destruct (P m) eqn:Hp; [|done].
    assert (m ∈ filter (λ x, P x = true) names) as Hin
      by (by apply list_elem_of_filter).
    rewrite Hf in Hin. by apply elem_of_nil in Hin.
  - intros Hall. induction names as [|x l IH]; [done|].
    rewrite filter_cons, decide_False.
    + apply IH. intros. apply Hall. by right.
    + rewrite Hall; [done|by left].
Qed.

End Matching.

(** ** C1: the section chosen by [parse] *)



(** The shorter name wins over the longer one that also matches. *)
Example parse_exact_host_before_substring :
  _BugzillaRCFile.parse Sample.rc "http://a.com/sub/x"
    = Ok {[ "user" := "u1"; "url" := "http://a.com" ]}.
Proof. vm_compute. reflexivity. Qed.

Example parse_no_section :
  _BugzillaRCFile.parse Sample.rc "http://b.org/" = Ok ∅.
Proof. vm_compute. reflexivity. Qed.

(** ** Running the two monads *)

Section monad_steps.

Context {A B : Type}.
Implicit Types (f : A → M B) (w : World).

Lemma run_lift_ok (a : A) f w : (lift (Ok a) ≫= f) w = f a w.
Proof. reflexivity. Qed.

Lemma run_lift_raise e f w : (lift (Raise e) ≫= f) w = (Raise e, w).
Proof. reflexivity. Qed.

Lemma run_ret (a : A) f w : (mret a ≫= f) w = f a w.
Proof. reflexivity. Qed.

Lemma run_ask (f : World → M B) w : (ask ≫= f) w = f w w.
Proof. reflexivity. Qed.

Lemma run_modify (g : World → World) (f : unit → M B) w :
  (modify g ≫= f) w = f tt (g w).
Proof. reflexivity. Qed.

Lemma run_mret (a : A) w : (mret a : M A) w = (Ok a, w).
Proof. reflexivity. Qed.

End monad_steps.

Create Rewrite HintDb run.
#[global] Hint Rewrite @run_lift_ok @run_lift_raise @run_ret @run_ask
  @run_modify @run_mret : run.

(** Unfolds the plumbing of the error monad, and nothing else. *)
Ltac run_res := cbn [mbind mret res_bind res_ret].

(** Steps through the binds of a computation over the world. *)
Ltac run_M := repeat (progress (autorewrite with run; run_res)).

(** ** The token cache *)

Section token_cache_facts.

Implicit Types (self : _BugzillaTokenCache.t) (c : ConfigParser.t).
Implicit Types (url : string).

Lemma with_cfg_same self c :
  _BugzillaTokenCache._cfg self = Some c →
  _BugzillaTokenCache.with_cfg self c = self.
Proof. destruct self; simpl. by intros ->. Qed.

Lemma ensure_section_dflt c s :
  ConfigParser.dflt (ensure_section c s) = ConfigParser.dflt c.
Proof. unfold ensure_section. by destruct (ConfigParser.sects c !! s). Qed.

Lemma ensure_section_lookup c s :
  ConfigParser.sects (ensure_section c s) !! s
  = Some (default ∅ (ConfigParser.sects c !! s)).
Proof.
  unfold ensure_section.
  destruct (ConfigParser.sects c !! s) eqn:H; simpl; [exact H|].
  by rewrite lookup_insert_eq.
Qed.

Lemma ensure_section_lookup_ne c s s' :
  s ≠ s' →
  ConfigParser.sects (ensure_section c s) !! s' = ConfigParser.sects c !! s'.
Proof.
  intros Hne. unfold ensure_section.
  destruct (ConfigParser.sects c !! s) eqn:H; simpl; [done|].
  by rewrite lookup_insert_ne.
Qed.

Lemma ensure_section_idemp c s :
  ensure_section (ensure_section c s) s = ensure_section c s.
Proof.
  unfold ensure_section at 1. by rewrite ensure_section_lookup.
Qed.

(** Creating the missing section changes no option of any section. *)
Lemma ensure_section_own_option c s s' k :
  own_option (ensure_section c s) s' k = own_option c s' k.
Proof.
  unfold own_option. destruct (decide (s = s')) as [<-|Hne].
  - rewrite ensure_section_lookup.
    by destruct (ConfigParser.sects c !! s).
  - by rewrite ensure_section_lookup_ne.
Qed.

Lemma get_domain_spec self c url :
  _BugzillaTokenCache._cfg self = Some c →
  _BugzillaTokenCache._get_domain self url
  = Ok (token_domain url,
        _BugzillaTokenCache.with_cfg self
          (ensure_section c (token_domain url))).
Proof.
  intros Hc.
  unfold _BugzillaTokenCache._get_domain, _BugzillaTokenCache.the_cfg.
  fold (token_domain url). rewrite Hc. run_res.
  unfold ensure_section, ConfigParser.add_section.
  destruct (ConfigParser.sects c !! token_domain url) eqn:Hs.
  - case_bool_decide as Hin; simpl; [by rewrite with_cfg_same|].
    destruct Hin. apply elem_of_sections. eauto.
  - case_bool_decide as Hin; simpl; [|done].
    apply elem_of_sections in Hin as [? Hin]. congruence.
Qed.

Lemma has_option_read c s k :
  ConfigParser.has_option c s k
  = bool_decide (is_Some (read_option c s (ConfigParser.optionxform k))).
Proof.
  unfold ConfigParser.has_option, read_option.
  destruct (_ !! s) as [opts|]; simpl.
  - rewrite lookup_union.
    by destruct (opts !! _), (ConfigParser.dflt c !! _).
  - done.
Qed.

Lemma get_read c s k v :
  read_option c s (ConfigParser.optionxform k) = Some v →
  ConfigParser.get c s k = Ok v.
Proof.
  unfold read_option, ConfigParser.get.
  destruct (ConfigParser.sects c !! s); simpl; [|done]. by intros ->.
Qed.

Lemma get_value_spec self c url :
  _BugzillaTokenCache._cfg self = Some c →
  let c1 := ensure_section c (token_domain url) in
  _BugzillaTokenCache.get_value self url
  = Ok (read_option c1 (token_domain url) "token",
        _BugzillaTokenCache.with_cfg self c1).
Proof.
  intros Hc c1. unfold _BugzillaTokenCache.get_value.
  rewrite (get_domain_spec _ _ _ Hc). fold c1. run_res.
  unfold _BugzillaTokenCache.the_cfg.
  cbn [_BugzillaTokenCache.with_cfg _BugzillaTokenCache._cfg].
  run_res. rewrite has_option_read.
  change (ConfigParser.optionxform "token") with "token".
  destruct (read_option c1 (token_domain url) "token") as [v|] eqn:Hr.
  - by rewrite (get_read c1 _ "token" v Hr).
  - done.
Qed.

Lemma with_cfg_with_cfg self c c' :
  _BugzillaTokenCache.with_cfg (_BugzillaTokenCache.with_cfg self c) c'
  = _BugzillaTokenCache.with_cfg self c'.
Proof. done. Qed.

Lemma set_value_spec self c url value w :
  _BugzillaTokenCache._cfg self = Some c →
  let d := token_domain url in
  let c1 := ensure_section c d in
  let c2 := store_token c1 d value in
  _BugzillaTokenCache.set_value self url value w
  = if bool_decide (read_option c1 d "token" = value)
    then (Ok (_BugzillaTokenCache.with_cfg self c1), w)
    else (Ok (_BugzillaTokenCache.with_cfg self c2),
          match _BugzillaTokenCache.filename_set
                  (_BugzillaTokenCache._filename self) with
          | Some p => snd (IniFile.write c2 p w)
          | None => w
          end).
Proof.
  intros Hc d c1 c2. unfold _BugzillaTokenCache.set_value.
  rewrite (get_value_spec _ _ _ Hc). fold d c1. run_M.
  case_bool_decide as Heq; [done|].
  rewrite (get_domain_spec _ c1) by done. fold d.
  replace (ensure_section c1 d) with c1
    by (symmetry; apply ensure_section_idemp).
  rewrite with_cfg_with_cfg. run_M.
  unfold _BugzillaTokenCache.the_cfg.
  cbn [_BugzillaTokenCache.with_cfg _BugzillaTokenCache._cfg].
  run_M.
  assert (ConfigParser.sects c1 !! d
          = Some (default ∅ (ConfigParser.sects c1 !! d))) as Hd.
  { unfold c1. rewrite ensure_section_lookup. done. }
  assert (match value with
          | Some v => ConfigParser.set c1 d "token" v
          | None => ConfigParser.remove_option c1 d "token"
          end = Ok c2) as ->.
  { unfold c2, store_token, ConfigParser.set, ConfigParser.remove_option.
    rewrite Hd. by destruct value. }
  run_M. cbn [_BugzillaTokenCache._filename _BugzillaTokenCache.with_cfg].
  destruct (_BugzillaTokenCache.filename_set _); [|done].
  unfold IniFile.write, Os.write. by run_M.
Qed.

End token_cache_facts.

Section token_cache_claims.

Implicit Types (self : _BugzillaTokenCache.t) (c : ConfigParser.t).
Implicit Types (url : string).

Lemma set_filename_initialises self filename w self' w' :
  _BugzillaTokenCache.set_filename self filename w = (Ok self', w') →
  w' = w ∧ _BugzillaTokenCache._filename self' = filename ∧
  ∃ c, _BugzillaTokenCache._cfg self' = Some c.
Proof.
  unfold _BugzillaTokenCache.set_filename. rewrite run_ask.
  destruct (match _BugzillaTokenCache.filename_set filename with
            | Some p => IniFile.read w ConfigParser.new [p]
            | None => Ok (ConfigParser.new, [])
            end) as [[c ok]|e].
  - rewrite run_lift_ok, run_mret. intros [= <- <-]. eauto.
  - rewrite run_lift_raise. done.
Qed.

Lemma read_option_ensure c d k :
  read_option (ensure_section c d) d k
  = (default ∅ (ConfigParser.sects c !! d) ∪ ConfigParser.dflt c) !! k.
Proof.
  unfold read_option.
  by rewrite ensure_section_lookup, ensure_section_dflt.
Qed.

Lemma ensure_section_present c d opts :
  ConfigParser.sects c !! d = Some opts → ensure_section c d = c.
Proof. unfold ensure_section. by intros ->. Qed.

Lemma store_token_lookup c d value :
  ConfigParser.sects (store_token c d value) !! d
  = Some match value with
         | None => delete "token" (default ∅ (ConfigParser.sects c !! d))
         | Some v => <["token" := v]> (default ∅ (ConfigParser.sects c !! d))
         end.
Proof. unfold store_token. simpl. by rewrite lookup_insert_eq. Qed.

(** After [set_value] has stored a value, that value is read back,
    unless a removed token is still supplied by DEFAULT. *)
Lemma read_option_store_token c d value :
  (value = None → ConfigParser.dflt c !! "token" = None) →
  read_option (store_token c d value) d "token" = value.
Proof.
  intros Hd. unfold read_option. rewrite store_token_lookup. simpl.
  rewrite lookup_union. destruct value as [v|].
  - by rewrite lookup_insert_eq, union_Some_l.
  - rewrite lookup_delete_eq, Hd by done. done.
Qed.

End token_cache_claims.

(** ** C10: the token cache before and after [set_filename] *)



(** ** C4: removing a token *)




(** A token of DEFAULT is still read after the section's own token has
    been removed. *)
Example set_value_none_default_token :
  ∃ self' w',
    _BugzillaTokenCache.set_value Sample.token_cache_default "http://h" None
      Sample.world = (Ok self', w') ∧
    _BugzillaTokenCache.get_value self' "http://h"
    = Ok (Some "fallback", self') ∧
    writes w' = ["/home/u/.bugzillatoken"].
Proof. eexists _, _. split_and!; vm_compute; reflexivity. Qed.

(** ** C7: setting the value that is already stored *)




(** ** C2: the key of the token cache *)

(** C2, evaluated. [_parse_hostname] gives [h] for both the bare name and
    the schemed URL, but the token cache keys its sections by the network
    location alone: a token stored under [http://h] is not found under
    [h], whose section is the one named by the empty string. *)
Theorem token_cache_bare_host_is_another_entry :
  _parse_hostname "h" = "h" ∧ _parse_hostname "http://h" = "h" ∧
  token_domain "http://h" = "h" ∧ token_domain "h" = "" ∧
  ∃ self1 self2 c2 w1,
    _BugzillaTokenCache.set_value Sample.token_cache "http://h" (Some "tok")
      Sample.world = (Ok self1, w1) ∧
    _BugzillaTokenCache.get_value self1 "http://h" = Ok (Some "tok", self1) ∧
    _BugzillaTokenCache.get_value self1 "h" = Ok (None, self2) ∧
    _BugzillaTokenCache._cfg self2 = Some c2 ∧
    own_option c2 "h" "token" = Some "tok" ∧
    ConfigParser.sects c2 !! "" = Some ∅.
Proof.
  split_and!; [reflexivity..|].
  eexists _, _, _, _.
  split_and!; [vm_compute; reflexivity..|reflexivity| |];
    vm_compute; reflexivity.
Qed.

(** ** The cookie cache *)



(** C9. On a cookie cache on which [set_filename] has not run,
    [set_cookies] returns at once for every sequence of cookies: no
    exception, the cache as it was, the world as it was. *)
Theorem set_cookies_unbound_is_noop (cookies : list Cookie) (w : World) :
  _BugzillaCookieCache.set_cookies _BugzillaCookieCache.__init__ cookies w
  = (Ok _BugzillaCookieCache.__init__, w).
Proof. reflexivity. Qed.

(** ** Paths *)

Section path_facts.

Local Open Scope nat_scope.

Implicit Types (s p q : string) (c : ascii) (w : World).

Lemma str_length_app s1 s2 :
  String.length (s1 +:+ s2) = String.length s1 + String.length s2.
Proof. induction s1 as [|a s1 IH]; simpl; [done|]. by rewrite IH. Qed.

Lemma str_all_app f s1 s2 :
  PyStr.all f (s1 +:+ s2) = PyStr.all f s1 && PyStr.all f s2.
Proof.
  induction s1 as [|a s1 IH]; [done|].
  rewrite str_app_cons. simpl. by rewrite IH, andb_assoc.
Qed.

Lemma rbreak_app c s l r :
  PyStr.rbreak c s = Some (l, r) → s = l +:+ String c r.
Proof.
  revert l. induction s as [|a s IH]; intros l; simpl; [done|].
  destruct (PyStr.rbreak c s) as [[l' r']|].
  - intros [= <- <-]. rewrite str_app_cons. f_equal. by apply IH.
  - destruct (Ascii.eqb a c) eqn:Heq; [|done].
    intros [= <- <-]. apply Ascii.eqb_eq in Heq as ->. done.
Qed.

Lemma rstrip_char_length c s :
  String.length (PyStr.rstrip_char c s) ≤ String.length s.
Proof.
  induction s as [|a s IH]; simpl; [done|].
  destruct (PyStr.rstrip_char c s); simpl in *.
  - destruct (Ascii.eqb a c); simpl; lia.
  - lia.
Qed.

Lemma rstrip_char_empty c s :
  PyStr.rstrip_char c s = "" → PyStr.all (λ a, Ascii.eqb a c) s = true.
Proof.
  induction s as [|a s IH]; simpl; [done|].
  destruct (PyStr.rstrip_char c s); [|done].
  destruct (Ascii.eqb a c); [|done]. intros _. by apply IH.
Qed.

Lemma dirname_length p :
  String.length (Os.dirname p) ≤ String.length p.
Proof.
  unfold Os.dirname.
  destruct (PyStr.rbreak "/" p) as [[head tail]|] eqn:Hb; [|simpl; lia].
  apply rbreak_app in Hb as ->. rewrite str_length_app. simpl.
  pose proof (rstrip_char_length "/" head).
  destruct (PyStr.rstrip_char "/" head) eqn:Hr.
  - rewrite str_length_app. simpl. lia.
  - lia.
Qed.

(** Outside the root, the directory of a path is shorter than the
    path. *)
Lemma dirname_shorter p :
  PyStr.all (λ a, Ascii.eqb a "/") p = false →
  String.length (Os.dirname p) < String.length p.
Proof.
  unfold Os.dirname. intros Hp.
  destruct (PyStr.rbreak "/" p) as [[head tail]|] eqn:Hb.
  - apply rbreak_app in Hb as ->. rewrite str_length_app. simpl.
    pose proof (rstrip_char_length "/" head).
    destruct (PyStr.rstrip_char "/" head) eqn:Hr; [|lia].
    rewrite str_length_app. simpl.
    apply rstrip_char_empty in Hr. rewrite str_all_app, Hr in Hp. simpl in Hp.
    destruct tail; [done|simpl; lia].
  - destruct p; [done|simpl; lia].
Qed.

Lemma make_parents_longer n w d ds q :
  String.length d < String.length q →
  Os.make_parents n w d ds !! q = ds !! q.
Proof.
  revert d. induction n as [|n IH]; intros d Hlen; simpl; [done|].
  destruct (PyStr.truthy d && negb (Os.exists_ w d)); [|done].
  rewrite lookup_insert_ne by (intros ->; lia).
  apply IH. pose proof (dirname_length d). lia.
Qed.

Lemma expanduser_home w rest :
  Os.expanduser w (String "~" (String "/" rest))
  = PyStr.rstrip_char "/" (home w) +:+ String "/" rest.
Proof.
  unfold Os.expanduser.
  by destruct (PyStr.rstrip_char "/" (home w)).
Qed.

Lemma xdgpath_not_root w filename kind :
  PyStr.all (λ a, Ascii.eqb a "/") (xdgpath w filename kind) = false.
Proof.
  unfold xdgpath.
  change ("~/." +:+ kind +:+ "/python-bugzilla/" +:+ filename)
    with (String "~" (String "/"
            (String "." (kind +:+ "/python-bugzilla/" +:+ filename)))).
  rewrite expanduser_home, str_all_app. simpl. apply andb_false_r.
Qed.

End path_facts.

(** ** C5: the default location of a file *)



Example default_location_both_exist :
  _default_location "bugzillatoken" "cache" Sample.world_both
  = (Ok "/home/u/.cache/python-bugzilla/bugzillatoken", Sample.world_both).
Proof. reflexivity. Qed.

Example default_location_creates_directories :
  dirs (snd (_default_location "bugzillatoken" "cache" Sample.world))
  = {[ "/home/u" := Os.mode_0o777; "/home/u/.cache" := Os.mode_0o777;
       "/home/u/.cache/python-bugzilla" := Os.mode_0o700 ]}.
Proof. vm_compute. reflexivity. Qed.

(** ** Reading several configuration files *)

Section read_facts.

Local Open Scope list_scope.

Implicit Types (c d : ConfigParser.t) (w : World) (paths : list string).

Lemma update_sects_lookup c d s :
  ConfigParser.sects (ConfigParser.update c d) !! s
  = union_with (λ new old, Some (new ∪ old))
      (ConfigParser.sects d !! s) (ConfigParser.sects c !! s).
Proof. unfold ConfigParser.update. simpl. apply lookup_union_with. Qed.

(** The file read last overrides, option by option. *)
Lemma update_own_option c d s k :
  own_option (ConfigParser.update c d) s k
  = match own_option d s k with
    | Some v => Some v
    | None => own_option c s k
    end.
Proof.
  unfold own_option. rewrite update_sects_lookup.
  destruct (ConfigParser.sects d !! s) as [od|],
           (ConfigParser.sects c !! s) as [oc|]; simpl; try done.
  - rewrite lookup_union. by destruct (od !! k), (oc !! k).
  - by destruct (od !! k).
Qed.

Lemma update_new d : ConfigParser.update ConfigParser.new d = d.
Proof.
  destruct d as [df ss]. unfold ConfigParser.update. simpl. f_equal.
  - apply (right_id ∅ (∪)).
  - apply (right_id ∅ (union_with _)).
Qed.

Lemma read_own_option w c paths c' read_ok s k :
  IniFile.read w c paths = Ok (c', read_ok) →
  own_option c' s k
  = match last_setting w paths s k with
    | Some v => Some v
    | None => own_option c s k
    end.
Proof.
  revert c c' read_ok.
  induction paths as [|p paths IH]; intros c c' read_ok; simpl.
  - by intros [= <- <-].
  - unfold file_option. destruct (files w !! p) as [f|]; simpl.
    + destruct (as_ini f) as [d|]; simpl; [|done].
      destruct (IniFile.read w (ConfigParser.update c d) paths)
        as [[c'' ok]|] eqn:Hread; simpl; [|done].
      intros [= <- <-]. rewrite (IH _ _ _ Hread), update_own_option.
      by destruct (last_setting w paths s k).
    + intros Hread. rewrite (IH _ _ _ Hread).
      by destruct (last_setting w paths s k).
Qed.

(** [last_setting] in words: the value comes from a file of the list
    after which no file of the list sets the option. *)
Lemma last_setting_Some w paths s k v :
  last_setting w paths s k = Some v ↔
  ∃ before p after,
    paths = before ++ p :: after ∧ file_option w p s k = Some v ∧
    ∀ q, q ∈ after → file_option w q s k = None.
Proof.
  induction paths as [|p paths IH]; simpl.
  - split; [done|]. intros (before & ? & ? & H & _). by destruct before.
  - destruct (last_setting w paths s k) as [v'|] eqn:Hl.
    + split.
      * intros [= ->]. destruct (proj1 IH eq_refl)
          as (before & q & after & -> & Hq & Hafter).
        by exists (p :: before), q, after.
      * intros ([|p' before] & q & after & Heq & Hq & Hafter);
          simplify_eq/=.
        -- assert (last_setting w after s k = None) as Hnone.
           { clear -Hafter. induction after as [|a after IH]; [done|].
             simpl. rewrite IH by (intros; apply Hafter; by right).
             apply Hafter. by left. }
           congruence.
        -- apply IH. eauto 10.
    + split.
      * intros Hp. exists [], p, paths. split_and!; [done|done|].
        intros q Hq. destruct (file_option w q s k) as [u|] eqn:Hu; [|done].
        apply list_elem_of_split in Hq as (l1 & l2 & ->).
        exfalso. clear -Hl Hu. induction l1 as [|a l1 IH]; simpl in Hl.
        -- rewrite Hu in Hl. by destruct (last_setting w l2 s k).
        -- destruct (last_setting w (l1 ++ q :: l2) s k); [done|auto].
      * intros ([|p' before] & q & after & Heq & Hq & Hafter);
          simplify_eq/=; [done|].
        assert (is_Some (last_setting w (before ++ q :: after) s k))
          as [? ?]; [|congruence].
        clear -Hq. induction before as [|a before IH]; simpl.
        -- rewrite Hq. by destruct (last_setting w after s k).
        -- destruct IH as [u ->]. eauto.
Qed.

End read_facts.

(** ** C3: the default configuration files *)




(** ** Section names of a configured store *)

Section store_names.

Implicit Types (c d : ConfigParser.t) (w : World) (paths : list string).

Lemma update_sections c d s :
  s ∈ ConfigParser.sections (ConfigParser.update c d) →
  s ∈ ConfigParser.sections c ∨ s ∈ ConfigParser.sections d.
Proof.
  rewrite !elem_of_sections, update_sects_lookup.
  destruct (ConfigParser.sects d !! s), (ConfigParser.sects c !! s);
    simpl; eauto.
Qed.

Lemma read_sections w c paths c' read_ok s :
  IniFile.read w c paths = Ok (c', read_ok) →
  s ∈ ConfigParser.sections c' →
  s ∈ ConfigParser.sections c ∨
  ∃ p f d, files w !! p = Some f ∧ as_ini f = Some d ∧
           s ∈ ConfigParser.sections d.
Proof.
  revert c c' read_ok.
  induction paths as [|p paths IH]; intros c c' read_ok; simpl.
  - intros [= <- <-]. by left.
  - destruct (files w !! p) as [f|] eqn:Hf; [|by apply IH].
    destruct (as_ini f) as [d|] eqn:Hd; [|done].
    destruct (IniFile.read w (ConfigParser.update c d) paths)
      as [[c'' ok]|] eqn:Hread; simpl; [|done].
    intros [= <- <-] Hs.
    destruct (IH _ _ _ Hread Hs) as [Hin|?]; [|by right].
    apply update_sections in Hin as [?|?]; [by left|].
    right. by exists p, f, d.
Qed.

(** The header syntax of a sectioned file allows no empty section name,
    so a store configured from files has none. *)
Lemma set_configpaths_section_names self configpaths w rc w' :
  (∀ p f d, files w !! p = Some f → as_ini f = Some d →
     "" ∉ ConfigParser.sections d) →
  _BugzillaRCFile.set_configpaths self configpaths w = (Ok rc, w') →
  "" ∉ ConfigParser.sections (_BugzillaRCFile._cfg rc).
Proof.
  intros Hfiles. unfold _BugzillaRCFile.set_configpaths. rewrite run_ask.
  destruct (IniFile.read w ConfigParser.new _) as [[c ok]|e] eqn:Hread.
  - rewrite run_lift_ok, run_mret. intros [= <- <-] Hin.
    cbn [_BugzillaRCFile._cfg] in Hin.
    destruct (read_sections _ _ _ _ _ _ Hread Hin)
      as [Hnew|(p & f & d & Hf & Hd & Hs)].
    + apply elem_of_sections in Hnew as [? Hnew]. done.
    + by eapply Hfiles.
  - by rewrite run_lift_raise.
Qed.

End store_names.

(** ** C8: saving an API key *)

Section api_key_facts.

Implicit Types (c : ConfigParser.t) (w : World).

Lemma read_one w p old :
  ini_content w p = Some old →
  ∃ read_ok, IniFile.read w ConfigParser.new [p] = Ok (old, read_ok).
Proof.
  unfold ini_content. simpl. destruct (files w !! p) as [f|].
  - intros ->. rewrite update_new. eauto.
  - intros [= <-]. eauto.
Qed.

Lemma set_api_key c host api_key :
  (if negb (bool_decide (host ∈ ConfigParser.sections c))
   then ConfigParser.add_section c host else Ok c)
  ≫= (λ c', ConfigParser.set c' host "api_key" (PyStr.strip api_key))
  = Ok (with_api_key c host api_key).
Proof.
  unfold with_api_key, ConfigParser.add_section, ConfigParser.set.
  change (ConfigParser.optionxform "api_key") with "api_key".
  destruct (ConfigParser.sects c !! host) as [opts|] eqn:Hs.
  - case_bool_decide as Hin; cbn [negb mbind res_bind].
    + rewrite Hs. done.
    + destruct Hin. apply elem_of_sections. eauto.
  - case_bool_decide as Hin; cbn [negb mbind res_bind].
    + apply elem_of_sections in Hin as [? Hin]. congruence.
    + cbn [ConfigParser.sects ConfigParser.dflt].
      rewrite lookup_insert_eq. cbn [default]. by rewrite insert_insert_eq.
Qed.

End api_key_facts.

(** The destination is always determined. *)
Lemma config_destination_total (configpaths : list string) (w : World) :
  ∃ p w1, config_destination configpaths w = (Ok p, w1).
Proof.
  destruct configpaths as [|p rest]; [|by exists p, w].
  unfold config_destination, _default_config_location, _default_location.
  rewrite run_ask.
  repeat match goal with
         | |- context [if ?b then _ else _] => destruct b
         end; eauto.
Qed.



(** Without a configuration path the key goes to the default location,
    whose directory is created on the way. *)
Example save_api_key_default_destination :
  ∃ w',
    _save_api_key "h" "KEY" [] Sample.world = (Ok tt, w') ∧
    ini_content w' "/home/u/.config/python-bugzilla/bugzillarc"
    = Some {| ConfigParser.dflt := ∅;
              ConfigParser.sects := {[ "h" := {[ "api_key" := "KEY" ]} ]} |} ∧
    dirs w' !! "/home/u/.config/python-bugzilla" = Some Os.mode_0o700 ∧
    stdout w'
    = ["API key written to /home/u/.config/python-bugzilla/bugzillarc"].
Proof. eexists. split_and!; vm_compute; reflexivity. Qed.

(** * Further properties *)

(** ** The token cache: lookups after updates *)

Section token_cache_more.

Implicit Types (self : _BugzillaTokenCache.t) (c d : ConfigParser.t).
Implicit Types (url : string) (w : World).

(** What is read for an option of a section that is made sure to exist:
    the section's own value, else the one of DEFAULT. *)
Lemma read_option_ensure_own c s k :
  read_option (ensure_section c s) s k
  = match own_option c s k with
    | Some v => Some v
    | None => ConfigParser.dflt c !! k
    end.
Proof.
  rewrite read_option_ensure, lookup_union. unfold own_option.
  destruct (ConfigParser.sects c !! s) as [opts|]; simpl.
  - by destruct (opts !! k), (ConfigParser.dflt c !! k).
  - rewrite lookup_empty. by destruct (ConfigParser.dflt c !! k).
Qed.

Lemma read_option_ensure_agrees c d s k :
  agrees c d →
  read_option (ensure_section c s) s k = read_option (ensure_section d s) s k.
Proof.
  intros [Hd Ho]. by rewrite !read_option_ensure_own, Ho, Hd.
Qed.

Lemma store_token_dflt c s value :
  ConfigParser.dflt (store_token c s value) = ConfigParser.dflt c.
Proof. done. Qed.

Lemma store_token_lookup_ne c s s' value :
  s ≠ s' →
  ConfigParser.sects (store_token c s value) !! s'
  = ConfigParser.sects c !! s'.
Proof. intros Hne. unfold store_token. simpl. by rewrite lookup_insert_ne. Qed.

(** The parser that [set_value] leaves in memory. *)
Lemma set_value_cfg self c url value w self' w' :
  _BugzillaTokenCache._cfg self = Some c →
  _BugzillaTokenCache.set_value self url value w = (Ok self', w') →
  let c1 := ensure_section c (token_domain url) in
  (read_option c1 (token_domain url) "token" = value ∧
   self' = _BugzillaTokenCache.with_cfg self c1 ∧ w' = w) ∨
  (read_option c1 (token_domain url) "token" ≠ value ∧
   self' = _BugzillaTokenCache.with_cfg self
             (store_token c1 (token_domain url) value) ∧
   w' = match _BugzillaTokenCache.filename_set
                (_BugzillaTokenCache._filename self) with
        | Some p =>
            snd (IniFile.write (store_token c1 (token_domain url) value) p w)
        | None => w
        end).
Proof.
  intros Hc. rewrite (set_value_spec _ _ url value w Hc).
  case_bool_decide; intros [= <- <-]; [left|right]; done.
Qed.

End token_cache_more.

(** After [set_value] with a string, the section of the URL holds it. *)
Lemma set_value_stores
    (self self' : _BugzillaTokenCache.t) (c : ConfigParser.t)
    (url v : string) (w w' : World) :
  _BugzillaTokenCache._cfg self = Some c →
  _BugzillaTokenCache.set_value self url (Some v) w = (Ok self', w') →
  ∃ c2 opts,
    self' = _BugzillaTokenCache.with_cfg self c2 ∧
    ConfigParser.sects c2 !! token_domain url = Some opts ∧
    read_option c2 (token_domain url) "token" = Some v.
Proof.
  intros Hc Hset. set (d := token_domain url) in *.
  destruct (set_value_cfg _ _ _ _ _ _ _ Hc Hset)
    as [(Hr & -> & _)|(_ & -> & _)].
  - eexists (ensure_section c d), _. split_and!; [done| |done].
    apply ensure_section_lookup.
  - eexists (store_token (ensure_section c d) d (Some v)), _.
    split_and!; [done| |].
    + apply store_token_lookup.
    + by apply read_option_store_token.
Qed.





(** ** The token cache and its file *)

(** X3. [set_value] writes at most the file the cache is bound to: every
    other file, the directories and the output are as before, and a
    cache without a file name leaves the whole world as it was. The file
    name of the cache does not change. *)
Theorem set_value_writes_only_token_file
    (self self' : _BugzillaTokenCache.t) (c : ConfigParser.t)
    (url : string) (value : option string) (w w' : World) :
  _BugzillaTokenCache._cfg self = Some c →
  _BugzillaTokenCache.set_value self url value w = (Ok self', w') →
  _BugzillaTokenCache._filename self' = _BugzillaTokenCache._filename self ∧
  dirs w' = dirs w ∧ stdout w' = stdout w ∧
  (∀ q, _BugzillaTokenCache.filename_set (_BugzillaTokenCache._filename self)
          ≠ Some q →
        files w' !! q = files w !! q) ∧
  (_BugzillaTokenCache.filename_set (_BugzillaTokenCache._filename self)
     = None → w' = w).
Proof.
  intros Hc Hset.
  destruct (set_value_cfg _ _ _ _ _ _ _ Hc Hset)
    as [(_ & -> & ->)|(_ & -> & ->)]; [by split_and!|].
  destruct (_BugzillaTokenCache.filename_set _) as [p|]; [|by split_and!].
  split_and!; try done.
  intros q Hq. cbn. rewrite lookup_insert_ne; [done|congruence].
Qed.

Lemma set_value_writes_only_token_file_witness :
  _BugzillaTokenCache._cfg Sample.token_cache_h = Some Sample.cfg_h ∧
  ∃ self' w',
    _BugzillaTokenCache.set_value Sample.token_cache_h "http://h"
      (Some "new") Sample.world_rc = (Ok self', w') ∧
    writes w' = ["/home/u/.bugzillatoken"] ∧
    files w' !! "/etc/bugzillarc" = files Sample.world_rc !! "/etc/bugzillarc" ∧
    dirs w' = dirs Sample.world_rc.
Proof.
  split; [reflexivity|].
  destruct (_BugzillaTokenCache.set_value Sample.token_cache_h "http://h"
              (Some "new") Sample.world_rc) as [[self'|e] w'] eqn:Hset;
    [|vm_compute in Hset; discriminate Hset].
  destruct (set_value_writes_only_token_file Sample.token_cache_h self'
              Sample.cfg_h "http://h" (Some "new") Sample.world_rc w'
              eq_refl Hset) as (_ & Hdirs & _ & Hfiles & _).
  exists self', w'. split_and!; [done| |by apply Hfiles|done].
  vm_compute in Hset. by injection Hset as _ <-.
Defined.

Section token_cache_sync.

Implicit Types (self : _BugzillaTokenCache.t) (c d : ConfigParser.t).
Implicit Types (url : string) (w : World).

Lemma agrees_refl c : agrees c c.
Proof. by split. Qed.

Lemma agrees_ensure_section c d s :
  agrees c d → agrees (ensure_section c s) d.
Proof.
  intros [Hd Ho]. split.
  - by rewrite ensure_section_dflt.
  - intros s' k. by rewrite ensure_section_own_option.
Qed.

Lemma ini_content_write c p w :
  ini_content (snd (IniFile.write c p w)) p = Some c.
Proof. unfold ini_content. cbn. by rewrite lookup_insert_eq. Qed.

(** A cache that has just been bound to a file agrees with it. *)
Lemma set_filename_synced self p w self' w' :
  PyStr.truthy p = true →
  _BugzillaTokenCache.set_filename self (Some p) w = (Ok self', w') →
  synced self' w'.
Proof.
  intros Hp. unfold _BugzillaTokenCache.set_filename. rewrite run_ask.
  cbn [_BugzillaTokenCache.filename_set]. rewrite Hp.
  destruct (IniFile.read w ConfigParser.new [p]) as [[c ok]|e] eqn:Hread;
    [|by rewrite run_lift_raise].
  rewrite run_lift_ok, run_mret. intros [= <- <-].
  exists p, c, c. cbn [_BugzillaTokenCache._filename _BugzillaTokenCache._cfg
                      _BugzillaTokenCache.filename_set].
  rewrite Hp. split_and!; [done|done| |apply agrees_refl].
  unfold ini_content. simpl in Hread.
  destruct (files w !! p) as [f|]; [|by injection Hread as <- _].
  destruct (as_ini f) as [d|]; [|done]. simpl in Hread.
  injection Hread as <- _. by rewrite update_new.
Qed.

Lemma get_value_synced self url w token self1 :
  synced self w →
  _BugzillaTokenCache.get_value self url = Ok (token, self1) →
  synced self1 w.
Proof.
  intros (p & c & d & Hp & Hc & Hd & Hag).
  rewrite (get_value_spec _ _ url Hc). intros [= _ <-].
  exists p, (ensure_section c (token_domain url)), d.
  split_and!; [done|done|done|by apply agrees_ensure_section].
Qed.

Lemma set_value_synced self url value w self' w' :
  synced self w →
  _BugzillaTokenCache.set_value self url value w = (Ok self', w') →
  synced self' w'.
Proof.
  intros (p & c & d & Hp & Hc & Hd & Hag) Hset.
  destruct (set_value_cfg _ _ _ _ _ _ _ Hc Hset)
    as [(_ & -> & ->)|(_ & -> & ->)].
  - exists p, (ensure_section c (token_domain url)), d.
    split_and!; [done|done|done|by apply agrees_ensure_section].
  - rewrite Hp.
    exists p, (store_token (ensure_section c (token_domain url))
                 (token_domain url) value),
      (store_token (ensure_section c (token_domain url))
         (token_domain url) value).
    split_and!; [done|done|apply ini_content_write|apply agrees_refl].
Qed.

(** A new cache bound to the file of a cache that agrees with it gives
    the same answers. *)
Lemma synced_reload self w url :
  synced self w →
  ∃ fresh token s1 s2,
    _BugzillaTokenCache.set_filename _BugzillaTokenCache.__init__
      (_BugzillaTokenCache._filename self) w = (Ok fresh, w) ∧
    _BugzillaTokenCache.get_value self url = Ok (token, s1) ∧
    _BugzillaTokenCache.get_value fresh url = Ok (token, s2).
Proof.
  intros (p & c & d & Hp & Hc & Hd & Hag).
  destruct (read_one _ _ _ Hd) as [ok Hread].
  eexists _, _, _, _. split_and!.
  - unfold _BugzillaTokenCache.set_filename. rewrite run_ask, Hp, Hread.
    by rewrite run_lift_ok, run_mret.
  - by rewrite (get_value_spec _ _ url Hc).
  - rewrite (get_value_spec _ d url) by done. f_equal. f_equal.
    symmetry. by apply read_option_ensure_agrees.
Qed.

End token_cache_sync.







(** ** Configuration files: missing, malformed, defaults *)

Section configpaths_more.

Local Open Scope list_scope.

Implicit Types (c d : ConfigParser.t) (w : World) (paths : list string).

Lemma read_dflt w c paths c' read_ok k :
  IniFile.read w c paths = Ok (c', read_ok) →
  ConfigParser.dflt c' !! k
  = match last_default w paths k with
    | Some v => Some v
    | None => ConfigParser.dflt c !! k
    end.
Proof.
  revert c c' read_ok.
  induction paths as [|p paths IH]; intros c c' read_ok; simpl.
  - by intros [= <- <-].
  - unfold file_default. destruct (files w !! p) as [f|]; simpl.
    + destruct (as_ini f) as [d|]; simpl; [|done].
      destruct (IniFile.read w (ConfigParser.update c d) paths)
        as [[c'' ok]|] eqn:Hread; simpl; [|done].
      intros [= <- <-]. rewrite (IH _ _ _ Hread).
      unfold ConfigParser.update at 1. cbn [ConfigParser.dflt].
      rewrite lookup_union.
      by destruct (last_default w paths k), (ConfigParser.dflt d !! k),
                  (ConfigParser.dflt c !! k).
    + intros Hread. rewrite (IH _ _ _ Hread).
      by destruct (last_default w paths k).
Qed.

(** Reading stops at the first file that does not parse. *)
Lemma read_malformed w c before p after f :
  (∀ q g, q ∈ before → files w !! q = Some g → is_Some (as_ini g)) →
  files w !! p = Some f → as_ini f = None →
  IniFile.read w c (before ++ p :: after) = Raise (ParsingError p).
Proof.
  intros Hok Hf Hbad. revert c.
  induction before as [|q before IH]; intros c; simpl.
  - by rewrite Hf, Hbad.
  - destruct (files w !! q) as [g|] eqn:Hg.
    + destruct (Hok q g) as [d Hd]; [by left|done|]. rewrite Hd.
      rewrite IH; [done|]. intros q' g' Hin. apply Hok. by right.
    + apply IH. intros q' g' Hin. apply Hok. by right.
Qed.

(** Files that are missing do not matter to what is read. *)
Lemma read_existing w c paths :
  (fst <$> match IniFile.read w c paths with
           | Ok r => Some r | Raise _ => None end)
  = (fst <$> match IniFile.read w c
                     (filter (λ p, is_Some (files w !! p)) paths) with
             | Ok r => Some r | Raise _ => None end).
Proof.
  revert c. induction paths as [|p paths IH]; intros c; [done|].
  rewrite filter_cons. simpl.
  destruct (files w !! p) as [f|] eqn:Hf.
  - rewrite decide_True by eauto. simpl. rewrite Hf.
    destruct (as_ini f) as [d|]; [|done].
    specialize (IH (ConfigParser.update c d)).
    destruct (IniFile.read w (ConfigParser.update c d) paths) as [[c1 o1]|],
      (IniFile.read w (ConfigParser.update c d)
         (filter (λ p, is_Some (files w !! p)) paths)) as [[c2 o2]|];
      simpl in *; congruence.
  - rewrite decide_False by (by intros [? ?]). apply IH.
Qed.

End configpaths_more.

Section set_configpaths_more.

Local Open Scope list_scope.

Implicit Types (self rc : _BugzillaRCFile.t) (w : World).
Implicit Types (paths : list string).

Lemma expand_existing w paths :
  Os.expanduser w <$> existing w paths
  = filter (λ p, is_Some (files w !! p)) (Os.expanduser w <$> paths).
Proof.
  unfold existing. induction paths as [|p paths IH]; [done|].
  rewrite fmap_cons, !filter_cons. cbv beta.
  destruct (decide (is_Some (files w !! Os.expanduser w p)));
    [rewrite fmap_cons|]; by rewrite IH.
Qed.

(** [set_configpaths] in terms of what is read. *)
Lemma set_configpaths_read self paths w :
  _BugzillaRCFile.set_configpaths self (PathList paths) w
  = match IniFile.read w ConfigParser.new (Os.expanduser w <$> paths) with
    | Ok (c, _) =>
        (Ok {| _BugzillaRCFile._cfg := c;
               _BugzillaRCFile._configpaths := Os.expanduser w <$> paths |},
         w)
    | Raise e => (Raise e, w)
    end.
Proof.
  unfold _BugzillaRCFile.set_configpaths. rewrite run_ask.
  cbn [or_empty listify].
  destruct (IniFile.read w ConfigParser.new _) as [[c ok]|e]; [|done].
  by rewrite run_lift_ok, run_mret.
Qed.

Lemma parse_empty_store (configpaths : list string) url :
  _BugzillaRCFile.parse
    {| _BugzillaRCFile._cfg := ConfigParser.new;
       _BugzillaRCFile._configpaths := configpaths |} url = Ok ∅.
Proof. reflexivity. Qed.

Lemma read_all_missing w c paths :
  (∀ p, p ∈ paths → files w !! p = None) →
  IniFile.read w c paths = Ok (c, []).
Proof.
  induction paths as [|p paths IH]; intros Hmiss; [done|].
  simpl. rewrite (Hmiss p) by (by left). apply IH.
  intros q Hq. apply Hmiss. by right.
Qed.

End set_configpaths_more.





(** X9. [get_default_url] returns the [url] option of DEFAULT as given by
    the last of the configured files that sets it, and nothing when no
    file sets it. *)
Theorem get_default_url_last_file
    (self rc : _BugzillaRCFile.t) (paths : list string) (w w' : World) :
  _BugzillaRCFile.set_configpaths self (PathList paths) w = (Ok rc, w') →
  _BugzillaRCFile.get_default_url rc
  = last_default w (_BugzillaRCFile.get_configpaths rc) "url".
Proof.
  rewrite set_configpaths_read.
  destruct (IniFile.read w ConfigParser.new (Os.expanduser w <$> paths))
    as [[c ok]|e] eqn:Hread; [|done].
  intros [= <- <-].
  unfold _BugzillaRCFile.get_default_url, ConfigParser.defaults.
  cbn [_BugzillaRCFile._cfg _BugzillaRCFile.get_configpaths
       _BugzillaRCFile._configpaths].
  rewrite (read_dflt _ _ _ _ _ "url" Hread).
  by destruct (last_default _ _ _).
Qed.

Lemma get_default_url_last_file_witness :
  ∃ rc,
    _BugzillaRCFile.set_configpaths Sample.rc_new
      (PathList _BugzillaRCFile.get_default_configpaths) Sample2.world_urls
    = (Ok rc, Sample2.world_urls) ∧
    _BugzillaRCFile.get_default_url rc = Some "https://home.example".
Proof.
  destruct (_BugzillaRCFile.set_configpaths Sample.rc_new
              (PathList _BugzillaRCFile.get_default_configpaths)
              Sample2.world_urls) as [[rc|e] w'] eqn:Hrun;
    [|vm_compute in Hrun; discriminate Hrun].
  pose proof (get_default_url_last_file _ _ _ _ _ Hrun) as Hurl.
  assert (w' = Sample2.world_urls ∧
          _BugzillaRCFile.get_configpaths rc
          = ["/etc/bugzillarc"; "/home/u/.bugzillarc";
             "/home/u/.config/python-bugzilla/bugzillarc"]) as [-> Hpaths].
  { vm_compute in Hrun. by injection Hrun as <- <-. }
  exists rc. split; [reflexivity|]. by rewrite Hurl, Hpaths.
Defined.

(** ** More on [parse] *)

Section parse_more.

Implicit Types (self : _BugzillaRCFile.t) (c : ConfigParser.t).
Implicit Types (url n : string).

Lemma head_filter_unique (P : string → bool) (x : string)
    (l : list string) :
  (∀ y, y ∈ l → P y = true ↔ y = x) →
  head (filter (λ y, P y = true) l) = if decide (x ∈ l) then Some x else None.
Proof.
  induction l as [|y l IH]; intros HP.
  - by rewrite decide_False by apply not_elem_of_nil.
  - rewrite filter_cons. destruct (decide (P y = true)) as [Hy|Hy].
    + apply HP in Hy as ->; [|by left]. simpl.
      by rewrite decide_True by (by left).
    + rewrite IH by (intros z Hz; apply HP; by right).
      assert (y ≠ x) as Hne by (intros ->; apply Hy, HP; [by left|done]).
      destruct (decide (x ∈ l)) as [Hin|Hin].
      * by rewrite decide_True by (by right).
      * rewrite decide_False; [done|].
        by intros [?|?]%elem_of_cons.
Qed.

(** [parse] in terms of the first match in the sorted names. *)
Lemma parse_find self url :
  "" ∉ ConfigParser.sections (_BugzillaRCFile._cfg self) →
  _BugzillaRCFile.parse self url
  = match head (filter (λ n, MatchSpec.matchb url n = true)
                  (_BugzillaRCFile.sorted
                     (ConfigParser.sections (_BugzillaRCFile._cfg self))))
    with
    | Some n => ConfigParser.items (_BugzillaRCFile._cfg self) n
    | None => Ok ∅
    end.
Proof.
  intros Hne. unfold _BugzillaRCFile.parse.
  rewrite Matching.parse_loop_find
    by (intros Hin; by apply (proj1 (Matching.sorted_elem _ _)) in Hin).
  destruct (head _) as [n|] eqn:Hhead; [|done]. simpl.
  assert (n ≠ "") as Hn.
  { intros ->. apply Hne.
    apply (proj1 (Matching.sorted_elem _ _)).
    apply head_Some_elem_of in Hhead.
    by apply list_elem_of_filter in Hhead as [_ ?]. }
  by destruct n.
Qed.

End parse_more.



(** ** The host of a URL as a part of the URL *)

Section url_parts.

Implicit Types (s url : string) (c : ascii).

Lemma str_app_assoc s1 s2 s3 : (s1 +:+ s2) +:+ s3 = s1 +:+ s2 +:+ s3.
Proof.
  induction s1 as [|a s1 IH]; [done|].
  by rewrite !str_app_cons, IH.
Qed.

Lemma str_app_nil_r s : s +:+ "" = s.
Proof.
  induction s as [|a s IH]; [done|]. by rewrite str_app_cons, IH.
Qed.

Lemma substring_of_refl s : MatchSpec.substring_of s s.
Proof. exists "", "". by rewrite str_app_nil_l, str_app_nil_r. Qed.

Lemma substring_of_trans s1 s2 s3 :
  MatchSpec.substring_of s1 s2 → MatchSpec.substring_of s2 s3 →
  MatchSpec.substring_of s1 s3.
Proof.
  intros (l1 & r1 & ->) (l2 & r2 & ->).
  exists (l2 +:+ l1), (r1 +:+ r2). by rewrite !str_app_assoc.
Qed.

Lemma substring_of_prefix s r : MatchSpec.substring_of s (s +:+ r).
Proof. by exists "", r. Qed.

Lemma substring_of_suffix l s : MatchSpec.substring_of s (l +:+ s).
Proof. exists l, "". by rewrite str_app_nil_r. Qed.

Lemma break_app c s l r :
  PyStr.break c s = Some (l, r) → s = l +:+ String c r.
Proof.
  revert l. induction s as [|a s IH]; intros l; simpl; [done|].
  destruct (Ascii.eqb a c) eqn:Heq.
  - intros [= <- <-]. by apply Ascii.eqb_eq in Heq as ->.
  - destruct (PyStr.break c s) as [[l' r']|]; [|done].
    intros [= <- <-]. rewrite str_app_cons. f_equal. by apply IH.
Qed.

Lemma span_netloc_app s n r : Url.span_netloc s = (n, r) → s = n +:+ r.
Proof.
  revert n. induction s as [|a s IH]; intros n; cbn [Url.span_netloc].
  - by intros [= <- <-].
  - destruct (PyStr.contains a "/?#"); [by intros [= <- <-]|].
    destruct (Url.span_netloc s) as [n' r'].
    intros [= <- <-]. rewrite str_app_cons. f_equal. by apply IH.
Qed.

Lemma split_scheme_rest url :
  MatchSpec.substring_of (Url.split_scheme url).2 url.
Proof.
  unfold Url.split_scheme.
  destruct (PyStr.break ":" url) as [[[|c0 pre] rest]|] eqn:Hb;
    try apply substring_of_refl.
  destruct (_ && _); [|apply substring_of_refl]. simpl.
  apply break_app in Hb as ->.
  change (String ":" rest) with (":" +:+ rest).
  rewrite <- str_app_assoc. apply substring_of_suffix.
Qed.

Lemma split_netloc_cases s :
  (∃ rest, s = "//" +:+ rest ∧ Url.split_netloc s = Url.span_netloc rest) ∨
  Url.split_netloc s = ("", s).
Proof.
  destruct s as [|a [|b rest]];
    [by right|right; by destruct a as [[] [] [] [] [] [] [] []]|].
  destruct a as [[] [] [] [] [] [] [] []]; try (by right).
  destruct b as [[] [] [] [] [] [] [] []]; try (by right).
  left. by exists rest.
Qed.

Lemma split_netloc_parts s :
  MatchSpec.substring_of (Url.split_netloc s).1 s ∧
  MatchSpec.substring_of (Url.split_netloc s).2 s.
Proof.
  destruct (split_netloc_cases s) as [(rest & -> & ->)| ->].
  - destruct (Url.span_netloc rest) as [n r] eqn:Hs. simpl.
    apply span_netloc_app in Hs as ->. split.
    + by exists "//", r.
    + exists ("//" +:+ n), "". by rewrite str_app_nil_r, str_app_assoc.
  - simpl. split; [by exists "", s|apply substring_of_refl].
Qed.

Lemma split_first_head c s : MatchSpec.substring_of (Url.split_first c s).1 s.
Proof.
  unfold Url.split_first.
  destruct (PyStr.break c s) as [[l r]|] eqn:Hb; [|apply substring_of_refl].
  apply break_app in Hb as ->. apply substring_of_prefix.
Qed.

Lemma splitparams_head s : MatchSpec.substring_of (Url.splitparams s).1 s.
Proof.
  unfold Url.splitparams.
  destruct (PyStr.rbreak "/" s) as [[dir last]|] eqn:Hr;
    [|apply split_first_head].
  destruct (PyStr.break ";" last) as [[l r]|] eqn:Hb;
    [|apply substring_of_refl].
  apply rbreak_app in Hr as ->. apply break_app in Hb as ->. simpl.
  exists "", (String ";" r). rewrite str_app_nil_l.
  change (String "/" (l +:+ String ";" r)) with ("/" +:+ l +:+ String ";" r).
  by rewrite !str_app_assoc.
Qed.

(** Both the network location and the path that [urlparse] returns are
    parts of the URL. *)
Lemma urlparse_parts url :
  MatchSpec.substring_of (Url.netloc (Url.urlparse url)) url ∧
  MatchSpec.substring_of (Url.path (Url.urlparse url)) url.
Proof.
  unfold Url.urlparse.
  pose proof (split_scheme_rest url) as H1.
  destruct (Url.split_scheme url) as [sch url1]. simpl in H1.
  destruct (split_netloc_parts url1) as [Hn H2].
  destruct (Url.split_netloc url1) as [nl url2]. simpl in Hn, H2.
  pose proof (split_first_head "#" url2) as H3.
  destruct (Url.split_first "#" url2) as [url3 frag]. simpl in H3.
  pose proof (split_first_head "?" url3) as H4.
  destruct (Url.split_first "?" url3) as [url4 qry]. simpl in H4.
  assert (MatchSpec.substring_of url4 url) as H5
    by eauto using substring_of_trans.
  pose proof (splitparams_head url4) as H6.
  destruct (_ && _).
  - destruct (Url.splitparams url4) as [pth prm]. simpl in *.
    split; eauto using substring_of_trans.
  - simpl. split; eauto using substring_of_trans.
Qed.

Lemma hostname_part url : MatchSpec.substring_of (_parse_hostname url) url.
Proof.
  unfold _parse_hostname. destruct (urlparse_parts url) as [Hn Hp].
  by destruct (PyStr.truthy _).
Qed.

Lemma hostname_matchb url :
  MatchSpec.matchb url (_parse_hostname url) = true.
Proof.
  unfold MatchSpec.matchb.
  destruct (PyStr.contains "/" (_parse_hostname url)); simpl.
  - apply infix_true, hostname_part.
  - apply String.eqb_refl.
Qed.

End url_parts.


Section single_section.

Implicit Types (self : _BugzillaRCFile.t) (c : ConfigParser.t).

Lemma sorted_singleton (n : string) : _BugzillaRCFile.sorted [n] = [n].
Proof. reflexivity. Qed.

(** A store with one section gives the options of that section to every
    URL that the section's name matches. *)
Lemma parse_single_section self url n opts :
  ConfigParser.sects (_BugzillaRCFile._cfg self) = {[ n := opts ]} →
  n ≠ "" →
  MatchSpec.matchb url n = true →
  _BugzillaRCFile.parse self url
  = Ok (opts ∪ ConfigParser.dflt (_BugzillaRCFile._cfg self)).
Proof.
  intros Hs Hn Hm.
  assert (ConfigParser.sections (_BugzillaRCFile._cfg self) = [n]) as Hsec.
  { unfold ConfigParser.sections. by rewrite Hs, map_to_list_singleton. }
  rewrite parse_find
    by (rewrite Hsec; intros [?|?%elem_of_nil]%elem_of_cons; done).
  rewrite Hsec, sorted_singleton, filter_cons, decide_True by done.
  simpl. apply items_section. rewrite Hs. apply lookup_singleton_eq.
Qed.

End single_section.



(** ** More on [_save_api_key] *)

Section api_key_more.

Implicit Types (w : World) (p url api_key : string).

Lemma expanduser_same_home w w' p :
  home w' = home w → Os.expanduser w' p = Os.expanduser w p.
Proof. intros Hh. unfold Os.expanduser. by rewrite Hh. Qed.

(** [_save_api_key] with a configuration path, step by step. *)
Lemma save_api_key_to_path url api_key p rest w old :
  ini_content w p = Some old →
  _save_api_key url api_key (p :: rest) w
  = (Ok tt,
     snd (print ("API key written to " +:+ p)
            (snd (IniFile.write
                    (with_api_key old (_parse_hostname url) api_key) p w)))).
Proof.
  intros Hold. destruct (read_one _ _ _ Hold) as [read_ok Hread].
  unfold _save_api_key. unfold mbind at 1, M_bind.
  cbn [config_destination]. rewrite run_mret, run_ask, Hread, run_lift_ok.
  pose proof (set_api_key old (_parse_hostname url) api_key) as Hset.
  destruct (if negb (bool_decide
                       (_parse_hostname url ∈ ConfigParser.sections old))
            then ConfigParser.add_section old (_parse_hostname url)
            else Ok old) as [c1|e]; [|done].
  cbn [mbind res_bind] in Hset. by rewrite run_lift_ok, Hset, run_lift_ok.
Qed.

Lemma with_api_key_new host api_key :
  with_api_key ConfigParser.new host api_key
  = {| ConfigParser.dflt := ∅;
       ConfigParser.sects :=
         {[ host := {[ "api_key" := PyStr.strip api_key ]} ]} |}.
Proof.
  unfold with_api_key. simpl. rewrite lookup_empty. simpl.
  by rewrite !insert_empty.
Qed.

End api_key_more.



(** ** More on default locations *)

Section default_location_facts.

Local Open Scope nat_scope.

Implicit Types (s t p filename kind : string) (c : ascii) (w : World).

Lemma contains_app c s t :
  PyStr.contains c (s +:+ t) = PyStr.contains c s || PyStr.contains c t.
Proof.
  induction s as [|a s IH]; [done|].
  rewrite str_app_cons. simpl. by rewrite IH, orb_assoc.
Qed.

Lemma str_app_inv_head s t1 t2 : s +:+ t1 = s +:+ t2 → t1 = t2.
Proof.
  induction s as [|a s IH]; [by rewrite !str_app_nil_l|].
  rewrite !str_app_cons. intros [= H]. by apply IH.
Qed.

Lemma rbreak_none c t : PyStr.contains c t = false → PyStr.rbreak c t = None.
Proof.
  induction t as [|a t IH]; [done|]. simpl.
  intros [Ha Ht]%orb_false_elim. by rewrite IH, Ha.
Qed.

(** The last separator of a path. *)
Lemma rbreak_last c s t :
  PyStr.contains c t = false →
  PyStr.rbreak c (s +:+ String c t) = Some (s, t).
Proof.
  intros Ht. induction s as [|a s IH].
  - rewrite str_app_nil_l. simpl. by rewrite rbreak_none, Ascii.eqb_refl.
  - rewrite str_app_cons. simpl. by rewrite IH.
Qed.

Lemma rstrip_char_keep c t :
  PyStr.contains c t = false → PyStr.rstrip_char c t = t.
Proof.
  induction t as [|a t IH]; [done|]. simpl.
  intros [Ha Ht]%orb_false_elim. rewrite IH by done.
  destruct t; [by rewrite Ha|done].
Qed.

Lemma rstrip_char_app c s t :
  t ≠ "" → PyStr.contains c t = false →
  PyStr.rstrip_char c (s +:+ t) = s +:+ t.
Proof.
  intros Hne Ht. induction s as [|a s IH].
  - rewrite str_app_nil_l. by apply rstrip_char_keep.
  - rewrite str_app_cons. simpl. rewrite IH.
    destruct s; [|by rewrite str_app_cons].
    rewrite str_app_nil_l. by destruct t.
Qed.

(** The directory of [s/t], where [s] does not end in a slash. *)
Lemma dirname_app s u t :
  u ≠ "" → PyStr.contains "/" u = false → PyStr.contains "/" t = false →
  Os.dirname ((s +:+ u) +:+ String "/" t) = s +:+ u.
Proof.
  intros Hne Hu Ht. unfold Os.dirname.
  rewrite rbreak_last by done. rewrite rstrip_char_app by done.
  destruct s; [rewrite str_app_nil_l; by destruct u|by rewrite str_app_cons].
Qed.

(** The directory of [s/t] is not longer than [s/]. *)
Lemma dirname_app_length s t :
  PyStr.contains "/" t = false →
  String.length (Os.dirname (s +:+ String "/" t)) ≤ S (String.length s).
Proof.
  intros Ht. unfold Os.dirname. rewrite rbreak_last by done.
  pose proof (rstrip_char_length "/" s).
  destruct (PyStr.rstrip_char "/" s).
  - rewrite str_length_app. simpl. lia.
  - lia.
Qed.

Lemma homepath_parts w filename :
  homepath w filename
  = PyStr.rstrip_char "/" (home w) +:+ String "/" ("." +:+ filename).
Proof. unfold homepath. apply expanduser_home. Qed.

Lemma xdgpath_parts w filename kind :
  xdgpath w filename kind
  = ((PyStr.rstrip_char "/" (home w) +:+ String "/" ("." +:+ kind))
       +:+ "/python-bugzilla") +:+ String "/" filename.
Proof.
  unfold xdgpath.
  change ("~/." +:+ kind +:+ "/python-bugzilla/" +:+ filename)
    with (String "~" (String "/"
            (String "." (kind +:+ "/python-bugzilla/" +:+ filename)))).
  rewrite expanduser_home.
  change (String "/" (String "." (kind +:+ "/python-bugzilla/" +:+ filename)))
    with ("/." +:+ (kind +:+ ("/python-bugzilla" +:+ String "/" filename))).
  change (String "/" ("." +:+ kind)) with ("/." +:+ kind).
  by rewrite !str_app_assoc.
Qed.

(** [_default_location], case by case. *)
Lemma default_location_run filename kind w :
  _default_location filename kind w
  = if Os.exists_ w (xdgpath w filename kind)
    then (Ok (xdgpath w filename kind), w)
    else if Os.exists_ w (homepath w filename)
    then (Ok (homepath w filename), w)
    else if Os.exists_ w (Os.dirname (xdgpath w filename kind))
    then (Ok (xdgpath w filename kind), w)
    else (Ok (xdgpath w filename kind),
          with_dirs
            (λ ds, <[Os.dirname (xdgpath w filename kind) := Os.mode_0o700]>
               (Os.make_parents
                  (String.length (Os.dirname (xdgpath w filename kind))) w
                  (Os.dirname (Os.dirname (xdgpath w filename kind))) ds))
            w).
Proof.
  unfold _default_location. rewrite run_ask.
  fold (homepath w filename) (xdgpath w filename kind).
  destruct (Os.exists_ w (xdgpath w filename kind)); [done|].
  destruct (Os.exists_ w (homepath w filename)); [done|].
  by destruct (Os.exists_ w (Os.dirname (xdgpath w filename kind))).
Qed.

End default_location_facts.

(** X14. [_default_location] is stable: for a file name and a kind
    without slash that differ, as in all uses of the module
    ([bugzillatoken] and [bugzillacookies] in [cache], [bugzillarc] in
    [config]), a second call returns the path of the first and changes
    nothing, also when the first call has created directories. *)
Theorem default_location_stable
    (filename kind p : string) (w w1 : World) :
  PyStr.contains "/" filename = false →
  PyStr.contains "/" kind = false →
  filename ≠ kind →
  _default_location filename kind w = (Ok p, w1) →
  _default_location filename kind w1 = (Ok p, w1).
Proof.
  intros Hfile Hkind Hne. rewrite default_location_run.
  destruct (Os.exists_ w (xdgpath w filename kind)) eqn:Hx.
  { intros [= <- <-]. by rewrite default_location_run, Hx. }
  destruct (Os.exists_ w (homepath w filename)) eqn:Hh.
  { intros [= <- <-]. by rewrite default_location_run, Hx, Hh. }
  destruct (Os.exists_ w (Os.dirname (xdgpath w filename kind))) eqn:Hd.
  { intros [= <- <-]. by rewrite default_location_run, Hx, Hh, Hd. }
  intros [= <- <-]. rewrite default_location_run.
  set (w1 := with_dirs _ w).
  change (xdgpath w1 filename kind) with (xdgpath w filename kind).
  change (homepath w1 filename) with (homepath w filename).
  set (H' := PyStr.rstrip_char "/" (home w)).
  set (d2 := H' +:+ String "/" ("." +:+ kind)).
  set (d1 := d2 +:+ "/python-bugzilla").
  assert (xdgpath w filename kind = d1 +:+ String "/" filename) as Hxdg
    by apply xdgpath_parts.
  assert (Os.dirname (xdgpath w filename kind) = d1) as Hd1.
  { rewrite Hxdg. unfold d1.
    change "/python-bugzilla" with (String "/" "" +:+ "python-bugzilla").
    rewrite <- str_app_assoc. by apply dirname_app. }
  assert (String.length (Os.dirname d1) ≤ String.length d2)%nat as Hd2.
  { unfold d1. change "/python-bugzilla" with (String "/" "python-bugzilla").
    unfold Os.dirname. rewrite rbreak_last by done.
    pose proof (rstrip_char_length "/" d2).
    destruct (PyStr.rstrip_char "/" d2) eqn:Hr; [|done].
    apply rstrip_char_empty in Hr. unfold d2 in Hr.
    rewrite str_all_app in Hr. simpl in Hr. by rewrite andb_false_r in Hr. }
  assert (String.length (Os.dirname d2) ≤ S (String.length H'))%nat as Hd3.
  { unfold d2. apply dirname_app_length.
    change ("." +:+ kind) with (String "." kind). simpl. done. }
  assert (String.length d2 = String.length H' + 2 + String.length kind)%nat
    as Hlen2.
  { unfold d2. rewrite str_length_app.
    change ("." +:+ kind) with (String "." kind). simpl. lia. }
  assert (String.length d1 = String.length d2 + 16)%nat as Hlen1.
  { unfold d1. rewrite str_length_app. simpl. lia. }
  assert (String.length (xdgpath w filename kind)
          = String.length d1 + 1 + String.length filename)%nat as Hlenx.
  { rewrite Hxdg, str_length_app. simpl. lia. }
  assert (homepath w filename = H' +:+ String "/" ("." +:+ filename)) as Hhome
    by apply homepath_parts.
  assert (String.length (homepath w filename)
          = String.length H' + 2 + String.length filename)%nat as Hlenh.
  { rewrite Hhome, str_length_app.
    change ("." +:+ filename) with (String "." filename). simpl. lia. }
  assert (homepath w filename ≠ d1) as Hhd1.
  { rewrite Hhome. unfold d1, d2. rewrite str_app_assoc.
    intros Heq%str_app_inv_head.
    change (String "/" ("." +:+ filename)) with ("/." +:+ filename) in Heq.
    change (String "/" ("." +:+ kind) +:+ "/python-bugzilla")
      with ("/." +:+ (kind +:+ "/python-bugzilla")) in Heq.
    apply str_app_inv_head in Heq.
    rewrite Heq, contains_app in Hfile. simpl in Hfile.
    by rewrite orb_true_r in Hfile. }
  assert (homepath w filename ≠ d2) as Hhd2.
  { rewrite Hhome. unfold d2. intros Heq%str_app_inv_head.
    injection Heq as Heq. by destruct Hne. }
  assert (∀ q, q ≠ d1 → String.length (Os.dirname d1) < String.length q
               → dirs w1 !! q = dirs w !! q)%nat as Hlong.
  { intros q Hq Hlt. unfold w1. cbn [dirs with_dirs]. rewrite Hd1.
    rewrite lookup_insert_ne by done. by apply make_parents_longer. }
  assert (dirs w1 !! homepath w filename = dirs w !! homepath w filename)
    as Hdh.
  { unfold w1. cbn [dirs with_dirs]. rewrite Hd1.
    rewrite lookup_insert_ne by done.
    destruct (String.length d1) as [|n] eqn:Hn; [lia|].
    cbn [Os.make_parents].
    destruct (PyStr.truthy (Os.dirname d1)
              && negb (Os.exists_ w (Os.dirname d1))); [|done].
    assert (Os.dirname d1 = d2) as Hdd.
    { unfold d1, d2.
      change "/python-bugzilla" with (String "/" "python-bugzilla").
      change (String "/" ("." +:+ kind))
        with (String "/" "" +:+ String "." kind).
      rewrite <- str_app_assoc. apply dirname_app; [done| |done].
      simpl. done. }
    rewrite Hdd, lookup_insert_ne by done.
    apply make_parents_longer. lia. }
  assert (Os.exists_ w1 (xdgpath w filename kind) = false) as ->.
  { unfold Os.exists_ in *. change (files w1) with (files w).
    rewrite Hlong; [done| |lia].
    intros Heq. rewrite Heq in Hlenx. lia. }
  assert (Os.exists_ w1 (homepath w filename) = false) as ->.
  { unfold Os.exists_ in *. change (files w1) with (files w).
    by rewrite Hdh. }
  assert (Os.exists_ w1 (Os.dirname (xdgpath w filename kind)) = true) as ->.
  { unfold Os.exists_. unfold w1. cbn [dirs with_dirs].
    rewrite lookup_insert_eq. apply orb_true_iff. by right. }
  reflexivity.
Qed.

Lemma default_location_stable_witness :
  PyStr.contains "/" "bugzillatoken" = false ∧
  PyStr.contains "/" "cache" = false ∧
  "bugzillatoken" ≠ "cache" ∧
  ∃ w1,
    _default_location "bugzillatoken" "cache" Sample.world
    = (Ok "/home/u/.cache/python-bugzilla/bugzillatoken", w1) ∧
    dirs w1 !! "/home/u/.cache/python-bugzilla" = Some Os.mode_0o700 ∧
    _default_location "bugzillatoken" "cache" w1
    = (Ok "/home/u/.cache/python-bugzilla/bugzillatoken", w1).
Proof.
  split; [reflexivity|]. split; [reflexivity|]. split; [discriminate|].
  destruct (_default_location "bugzillatoken" "cache" Sample.world)
    as [r w1] eqn:Hrun.
  assert (r = Ok "/home/u/.cache/python-bugzilla/bugzillatoken") as ->
    by (vm_compute in Hrun; congruence).
  exists w1. split; [reflexivity|]. split.
  - vm_compute in Hrun. injection Hrun as <-. reflexivity.
  - exact (default_location_stable "bugzillatoken" "cache" _ Sample.world w1
             eq_refl eq_refl ltac:(discriminate) Hrun).
Defined.

(** ** More on the cookie cache *)

Section cookie_jar_facts.

Implicit Types (cj : MozillaCookieJar.t) (c : Cookie)
  (cookies : list Cookie) (k : string * string * string).

Local Open Scope list_scope.

Lemma last_cookie_snoc k cookies c :
  last_cookie k (cookies ++ [c])
  = if decide (cookie_key c = k) then Some c else last_cookie k cookies.
Proof.
  unfold last_cookie. rewrite filter_app, filter_cons, filter_nil.
  destruct (decide (cookie_key c = k)).
  - by rewrite last_snoc.
  - by rewrite app_nil_r.
Qed.

Lemma foldl_set_cookie_filename cj cookies :
  MozillaCookieJar.filename (foldl MozillaCookieJar.set_cookie cj cookies)
  = MozillaCookieJar.filename cj.
Proof.
  revert cj. induction cookies as [|c cookies IH]; intros cj; [done|].
  cbn [foldl]. by rewrite IH.
Qed.

(** What a jar holds after a sequence of [set_cookie]. *)
Lemma foldl_set_cookie_lookup cj cookies k :
  MozillaCookieJar.jar (foldl MozillaCookieJar.set_cookie cj cookies) !! k
  = match last_cookie k cookies with
    | Some c => Some c
    | None => MozillaCookieJar.jar cj !! k
    end.
Proof.
  induction cookies as [|c cookies IH] using rev_ind; [done|].
  rewrite foldl_app, last_cookie_snoc. cbn [foldl MozillaCookieJar.set_cookie
    MozillaCookieJar.jar].
  fold (cookie_key c).
  destruct (decide (cookie_key c = k)) as [->|Hne].
  - by rewrite lookup_insert_eq.
  - by rewrite lookup_insert_ne.
Qed.

Lemma well_keyed_empty : well_keyed ∅.
Proof. intros k c Hk. by rewrite lookup_empty in Hk. Qed.

Lemma well_keyed_foldl cj cookies :
  well_keyed (MozillaCookieJar.jar cj) →
  well_keyed
    (MozillaCookieJar.jar (foldl MozillaCookieJar.set_cookie cj cookies)).
Proof.
  intros Hcj k c. rewrite foldl_set_cookie_lookup.
  destruct (last_cookie k cookies) as [c'|] eqn:Hlast; [|apply Hcj].
  intros [= <-]. unfold last_cookie in Hlast.
  apply last_Some_elem_of, list_elem_of_filter in Hlast. by destruct Hlast.
Qed.

Lemma last_cookie_none k cookies :
  (∀ c, c ∈ cookies → cookie_key c ≠ k) → last_cookie k cookies = None.
Proof.
  intros Hall. unfold last_cookie.
  destruct (filter _ cookies) as [|c l] eqn:Hf; [done|].
  assert (c ∈ filter (λ c, cookie_key c = k) cookies) as Hc
    by (rewrite Hf; left).
  apply list_elem_of_filter in Hc as [Hk Hc]. by destruct (Hall c Hc).
Qed.

Lemma last_cookie_unique k cookies c :
  NoDup (cookie_key <$> cookies) → c ∈ cookies → cookie_key c = k →
  last_cookie k cookies = Some c.
Proof.
  intros Hnd Hc Hk. induction cookies as [|a cookies IH]; [by inv Hc|].
  rewrite fmap_cons in Hnd. apply NoDup_cons in Hnd as [Ha Hnd].
  unfold last_cookie. rewrite filter_cons.
  apply elem_of_cons in Hc as [->|Hc].
  - rewrite decide_True by done.
    fold (last_cookie k cookies). change (filter _ cookies) with
      (filter (λ c, cookie_key c = k) cookies).
    assert (filter (λ c, cookie_key c = k) cookies = []) as ->; [|done].
    destruct (filter _ cookies) as [|b l] eqn:Hf; [done|].
    assert (b ∈ filter (λ c, cookie_key c = k) cookies) as Hb
      by (rewrite Hf; left).
    apply list_elem_of_filter in Hb as [Hbk Hb]. destruct Ha.
    rewrite Hk, <- Hbk. by apply list_elem_of_fmap_2.
  - specialize (IH Hnd Hc). unfold last_cookie in IH.
    destruct (decide (cookie_key a = k)); [|done].
    destruct (filter _ cookies) as [|b l]; [done|]. exact IH.
Qed.

Lemma kept_earlier (now t : Z) c :
  (now ≤ t)%Z →
  MozillaCookieJar.kept t c = true → MozillaCookieJar.kept now c = true.
Proof.
  intros Hle. unfold MozillaCookieJar.kept, MozillaCookieJar.is_expired.
  destruct (discard c); [done|]. destruct (expires c) as [e|]; [|done].
  cbn [negb andb]. rewrite !negb_true_iff, !bool_decide_eq_false. lia.
Qed.

(** Loading at a later time what [save] wrote gives the cookies that
    [save] keeps at that time. *)
Lemma load_saved (now t : Z) cj0 m :
  (now ≤ t)%Z →
  well_keyed m → MozillaCookieJar.jar cj0 = ∅ →
  MozillaCookieJar.jar
    (foldl MozillaCookieJar.set_cookie cj0
       (filter (λ c, MozillaCookieJar.kept t c = true)
          (filter (λ c, MozillaCookieJar.kept now c = true)
             ((map_to_list m).*2))))
  = saved_jar t m.
Proof.
  intros Hle Hm Hcj0. apply map_eq. intros k.
  rewrite foldl_set_cookie_lookup, Hcj0, lookup_empty.
  set (l := filter _ (filter _ _)).
  assert (∀ c, c ∈ l ↔ m !! cookie_key c = Some c
                        ∧ MozillaCookieJar.kept t c = true) as Hl.
  { intros c. unfold l. rewrite !list_elem_of_filter, list_elem_of_fmap.
    split.
    - intros (Hk & _ & [k' c'] & -> & Hin).
      apply elem_of_map_to_list in Hin. cbn. split; [|done].
      by rewrite <- (Hm _ _ Hin).
    - intros [Hin Hk]. split_and!; [done|by apply (kept_earlier now t)|].
      exists (cookie_key c, c). split; [done|].
      by apply elem_of_map_to_list. }
  assert (NoDup (cookie_key <$> l)) as Hnd.
  { apply (sublist_NoDup _ (cookie_key <$> (map_to_list m).*2)).
    - assert (cookie_key <$> (map_to_list m).*2 = (map_to_list m).*1) as ->.
      { rewrite <- list_fmap_compose. apply Forall_fmap_ext_1, Forall_forall.
        intros [k' c'] Hin. apply elem_of_map_to_list in Hin. cbn.
        by rewrite (Hm _ _ Hin). }
      apply NoDup_fst_map_to_list.
    - apply fmap_sublist. unfold l.
      etrans; apply sublist_filter. }
  unfold saved_jar.
  destruct (filter _ m !! k) as [c|] eqn:Hk.
  - apply map_lookup_filter_Some in Hk as [Hk Hkept]. cbn in Hkept.
    pose proof (Hm _ _ Hk) as ->.
    rewrite (last_cookie_unique _ l c); [done|done| |done].
    by apply Hl.
  - rewrite last_cookie_none; [done|].
    intros c [Hin Hkept]%Hl Heq. subst k.
    assert (filter (λ kc, MozillaCookieJar.kept t kc.2 = true) m
              !! cookie_key c = Some c) as Hsome
      by (by apply map_lookup_filter_Some).
    by rewrite Hk in Hsome.
Qed.

End cookie_jar_facts.

Section cookie_cache_facts.

Implicit Types (self : _BugzillaCookieCache.t) (cj : MozillaCookieJar.t)
  (cookies : list Cookie) (p : string) (w : World).

(** The mode that a file has after it is written. *)
Lemma save_bound cj p w :
  MozillaCookieJar.filename cj = Some p →
  MozillaCookieJar.save cj w
  = (Ok tt,
     log_write p
       (with_files
          (insert p
             (cookiefile_of
                (match files w !! p with
                 | Some f => fmode f
                 | None => Os.mode_0o666
                 end) (now w) cj)) w)).
Proof. intros Hp. unfold MozillaCookieJar.save. rewrite Hp. reflexivity. Qed.

Lemma set_cookies_bound self cj p cookies w :
  _BugzillaCookieCache._cookiejar self = Some cj →
  MozillaCookieJar.filename cj = Some p →
  _BugzillaCookieCache.set_cookies self cookies w
  = (Ok {| _BugzillaCookieCache._cookiejar :=
             Some (foldl MozillaCookieJar.set_cookie cj cookies) |},
     log_write p
       (with_files
          (insert p
             (cookiefile_of
                (match files w !! p with
                 | Some f => fmode f
                 | None => Os.mode_0o666
                 end) (now w)
                (foldl MozillaCookieJar.set_cookie cj cookies))) w)).
Proof.
  intros Hcj Hp. unfold _BugzillaCookieCache.set_cookies. rewrite Hcj.
  cbv zeta. rewrite foldl_set_cookie_filename, Hp.
  unfold mbind, M_bind.
  rewrite (save_bound _ p) by (by rewrite foldl_set_cookie_filename).
  reflexivity.
Qed.

Lemma set_cookies_unnamed self cj cookies w :
  _BugzillaCookieCache._cookiejar self = Some cj →
  MozillaCookieJar.filename cj = None →
  _BugzillaCookieCache.set_cookies self cookies w
  = (Ok {| _BugzillaCookieCache._cookiejar :=
             Some (foldl MozillaCookieJar.set_cookie cj cookies) |}, w).
Proof.
  intros Hcj Hp. unfold _BugzillaCookieCache.set_cookies. rewrite Hcj.
  cbv zeta. by rewrite foldl_set_cookie_filename, Hp.
Qed.

Lemma exists_false w p :
  Os.exists_ w p = false → files w !! p = None ∧ dirs w !! p = None.
Proof.
  unfold Os.exists_. intros [Hf Hd]%orb_false_elim.
  apply bool_decide_eq_false in Hf, Hd.
  split; apply eq_None_not_Some; done.
Qed.

(** [set_filename] with the name of a file that does not exist. *)
Lemma cookie_set_filename_new self p w :
  Os.exists_ w p = false →
  _BugzillaCookieCache.set_filename self (Some p) w
  = (Ok {| _BugzillaCookieCache._cookiejar :=
             Some (MozillaCookieJar.new (Some p)) |},
     log_write p
       (with_files (insert p (empty_cookiefile Os.mode_0o600)) w)).
Proof.
  intros Hex. destruct (exists_false _ _ Hex) as [Hf _].
  unfold _BugzillaCookieCache.set_filename,
    _BugzillaCookieCache._build_cookiejar.
  unfold mbind at 1, M_bind. rewrite run_ask, Hex. cbn [negb].
  unfold Os.touch, Os.chmod. unfold mbind, M_bind, modify. rewrite Hf.
  rewrite (save_bound _ p) by done. rewrite run_mret.
  unfold with_files, log_write. cbn [files dirs home now writes stdout].
  rewrite alter_insert_eq, lookup_insert_eq, insert_insert_eq.
  reflexivity.
Qed.

(** [set_filename] with a name that exists. *)
Lemma cookie_set_filename_existing self p w :
  Os.exists_ w p = true →
  _BugzillaCookieCache.set_filename self (Some p) w
  = match files w !! p with
    | None => (Raise (OSError p), w)
    | Some f =>
        match as_cookies f with
        | None =>
            (Raise (BugzillaError
                      ("cookiefile=" +:+ p +:+ " not in Mozilla format")), w)
        | Some cks =>
            (Ok {| _BugzillaCookieCache._cookiejar :=
                     Some (foldl MozillaCookieJar.set_cookie
                             (MozillaCookieJar.new (Some p))
                             (filter (λ c, MozillaCookieJar.kept (now w) c
                                           = true) cks)) |}, w)
        end
    end.
Proof.
  intros Hex.
  unfold _BugzillaCookieCache.set_filename,
    _BugzillaCookieCache._build_cookiejar.
  unfold mbind at 1, M_bind. rewrite run_ask, Hex. cbn [negb].
  unfold _BugzillaCookieCache.load_or_complain, MozillaCookieJar.load.
  cbn [MozillaCookieJar.filename MozillaCookieJar.new]. rewrite run_ask.
  destruct (files w !! p) as [f|]; [|reflexivity].
  destruct (as_cookies f); reflexivity.
Qed.

(** A cache that [set_filename] has bound to a name holds a jar of that
    name whose cookies are stored under their identity. *)
Lemma cookie_set_filename_ok self self' p w w' :
  _BugzillaCookieCache.set_filename self (Some p) w = (Ok self', w') →
  ∃ cj, self' = {| _BugzillaCookieCache._cookiejar := Some cj |} ∧
        MozillaCookieJar.filename cj = Some p ∧
        well_keyed (MozillaCookieJar.jar cj).
Proof.
  destruct (Os.exists_ w p) eqn:Hex.
  - rewrite cookie_set_filename_existing by done.
    destruct (files w !! p) as [f|]; [|done].
    destruct (as_cookies f) as [cks|]; [|done].
    intros [= <- _]. eexists. split; [done|].
    split; [by rewrite foldl_set_cookie_filename|].
    apply well_keyed_foldl, well_keyed_empty.
  - rewrite cookie_set_filename_new by done.
    intros [= <- _]. eexists. split; [done|]. split; [done|].
    apply well_keyed_empty.
Qed.

End cookie_cache_facts.

(** X15. On a cache that holds a jar, [set_cookies] never fails, and
    afterwards the jar holds, under every identity (domain, path, name),
    the last cookie of the sequence that has this identity, or the cookie
    it held before when the sequence has none. The name of the jar is
    kept. *)
Theorem set_cookies_last_cookie_wins
    (self : _BugzillaCookieCache.t) (cj : MozillaCookieJar.t)
    (cookies : list Cookie) (w : World) :
  _BugzillaCookieCache._cookiejar self = Some cj →
  ∃ cj' w',
    _BugzillaCookieCache.set_cookies self cookies w
    = (Ok {| _BugzillaCookieCache._cookiejar := Some cj' |}, w') ∧
    MozillaCookieJar.filename cj' = MozillaCookieJar.filename cj ∧
    ∀ k, MozillaCookieJar.jar cj' !! k
         = match last_cookie k cookies with
           | Some c => Some c
           | None => MozillaCookieJar.jar cj !! k
           end.
Proof.
  intros Hcj. destruct (MozillaCookieJar.filename cj) as [p|] eqn:Hp.
  - rewrite (set_cookies_bound _ _ _ _ _ Hcj Hp).
    eexists _, _. split; [reflexivity|].
    split; [by rewrite foldl_set_cookie_filename|].
    apply foldl_set_cookie_lookup.
  - rewrite (set_cookies_unnamed _ _ _ _ Hcj Hp).
    eexists _, _. split; [reflexivity|].
    split; [by rewrite foldl_set_cookie_filename|].
    apply foldl_set_cookie_lookup.
Qed.

Lemma set_cookies_last_cookie_wins_witness :
  _BugzillaCookieCache._cookiejar Sample4.cache
  = Some {| MozillaCookieJar.filename := Some "/home/u/.bugzillacookies";
            MozillaCookieJar.jar :=
              {[ cookie_key Sample4.sid := Sample4.sid ]} |} ∧
  ∃ cj' w',
    _BugzillaCookieCache.set_cookies Sample4.cache
      [Sample4.tmp; Sample4.sid'] Sample.world
    = (Ok {| _BugzillaCookieCache._cookiejar := Some cj' |}, w') ∧
    MozillaCookieJar.filename cj' = Some "/home/u/.bugzillacookies" ∧
    ∀ k, MozillaCookieJar.jar cj' !! k
         = match last_cookie k [Sample4.tmp; Sample4.sid'] with
           | Some c => Some c
           | None => ({[ cookie_key Sample4.sid := Sample4.sid ]}
                        : gmap _ Cookie) !! k
           end.
Proof.
  split; [reflexivity|].
  exact (set_cookies_last_cookie_wins Sample4.cache _
           [Sample4.tmp; Sample4.sid'] Sample.world eq_refl).
Defined.



(** X17. [set_cookies] on a cache bound to an existing file rewrites
    this file and keeps its mode; every other file and every directory
    stays as it is. *)
Theorem set_cookies_keeps_file_mode
    (self : _BugzillaCookieCache.t) (cj : MozillaCookieJar.t) (p : string)
    (f : file) (cookies : list Cookie) (w : World) :
  _BugzillaCookieCache._cookiejar self = Some cj →
  MozillaCookieJar.filename cj = Some p →
  files w !! p = Some f →
  ∃ self' w' f',
    _BugzillaCookieCache.set_cookies self cookies w = (Ok self', w') ∧
    files w' !! p = Some f' ∧
    fmode f' = fmode f ∧
    (∀ q, q ≠ p → files w' !! q = files w !! q) ∧
    dirs w' = dirs w ∧
    writes w' = p :: writes w.
Proof.
  intros Hcj Hp Hf. rewrite (set_cookies_bound _ _ _ _ _ Hcj Hp), Hf.
  eexists _, _, _. split; [reflexivity|].
  cbn [files dirs writes log_write with_files].
  split; [apply lookup_insert_eq|]. split; [reflexivity|].
  split; [|done]. intros q Hq. by rewrite lookup_insert_ne.
Qed.

Lemma set_cookies_keeps_file_mode_witness :
  _BugzillaCookieCache._cookiejar Sample4.cache
  = Some {| MozillaCookieJar.filename := Some "/home/u/.bugzillacookies";
            MozillaCookieJar.jar :=
              {[ cookie_key Sample4.sid := Sample4.sid ]} |} ∧
  files Sample4.world_cookies !! "/home/u/.bugzillacookies"
  = Some {| fmode := 416; as_ini := None;
            as_cookies := Some [Sample4.sid] |} ∧
  ∃ self' w' f',
    _BugzillaCookieCache.set_cookies Sample4.cache [Sample4.sid']
      Sample4.world_cookies = (Ok self', w') ∧
    files w' !! "/home/u/.bugzillacookies" = Some f' ∧
    fmode f' = 416%Z ∧
    (∀ q, q ≠ "/home/u/.bugzillacookies" →
          files w' !! q = files Sample4.world_cookies !! q) ∧
    dirs w' = dirs Sample4.world_cookies ∧
    writes w' = ["/home/u/.bugzillacookies"].
Proof.
  split; [reflexivity|]. split; [reflexivity|].
  exact (set_cookies_keeps_file_mode Sample4.cache _
           "/home/u/.bugzillacookies" _ [Sample4.sid'] Sample4.world_cookies
           eq_refl eq_refl eq_refl).
Defined.





(** X20. A cookie cache bound to no file name works in memory only:
    [set_filename None] and every later [set_cookies] succeed and leave
    the world as it is, [get_filename] returns [None], and the jar holds
    for every identity the last cookie given with it. *)
Theorem memory_only_cookie_cache
    (self : _BugzillaCookieCache.t) (cookies : list Cookie) (w : World) :
  ∃ self1,
    _BugzillaCookieCache.set_filename self None w = (Ok self1, w) ∧
    _BugzillaCookieCache.get_filename self1 = Ok None ∧
    ∀ w', ∃ cj2,
      _BugzillaCookieCache.set_cookies self1 cookies w'
      = (Ok {| _BugzillaCookieCache._cookiejar := Some cj2 |}, w') ∧
      MozillaCookieJar.filename cj2 = None ∧
      ∀ k, MozillaCookieJar.jar cj2 !! k = last_cookie k cookies.
Proof.
  eexists. split; [reflexivity|]. split; [reflexivity|].
  intros w'. eexists. split; [by apply set_cookies_unnamed|].
  split; [by rewrite foldl_set_cookie_filename|].
  intros k. rewrite foldl_set_cookie_lookup.
  cbn [MozillaCookieJar.jar MozillaCookieJar.new]. rewrite lookup_empty.
  by destruct (last_cookie k cookies).
Qed.

(** ** [_save_api_key] and the default configuration files *)

Section api_key_default.

Implicit Types (w : World) (p url api_key filename kind : string)
  (c : ConfigParser.t).

Lemma default_location_frame filename kind w r w1 :
  _default_location filename kind w = (r, w1) →
  files w1 = files w ∧ home w1 = home w ∧
  writes w1 = writes w ∧ stdout w1 = stdout w.
Proof.
  rewrite default_location_run.
  destruct (Os.exists_ w (xdgpath w filename kind)); [by intros [= <- <-]|].
  destruct (Os.exists_ w (homepath w filename)); [by intros [= <- <-]|].
  destruct (Os.exists_ w (Os.dirname (xdgpath w filename kind)));
    by intros [= <- <-].
Qed.

(** The default location is the XDG path, or the home path when the
    XDG path does not exist. *)
Lemma default_location_choice filename kind w r w1 :
  _default_location filename kind w = (r, w1) →
  r = Ok (xdgpath w filename kind) ∨
  (r = Ok (homepath w filename) ∧
   files w !! xdgpath w filename kind = None).
Proof.
  rewrite default_location_run.
  destruct (Os.exists_ w (xdgpath w filename kind)) eqn:Hx;
    [intros [= <- <-]; by left|].
  destruct (Os.exists_ w (homepath w filename));
    [intros [= <- <-]; right; split; [done|by apply exists_false]|].
  destruct (Os.exists_ w (Os.dirname (xdgpath w filename kind)));
    intros [= <- <-]; by left.
Qed.

Lemma config_destination_frame configpaths r w wd :
  config_destination configpaths w = (r, wd) →
  files wd = files w ∧ home wd = home w ∧
  writes wd = writes w ∧ stdout wd = stdout w.
Proof.
  destruct configpaths as [|p rest]; [apply default_location_frame|].
  by intros [= <- <-].
Qed.

Lemma read_one_malformed w p :
  ini_content w p = None →
  IniFile.read w ConfigParser.new [p] = Raise (ParsingError p).
Proof.
  unfold ini_content. simpl. destruct (files w !! p) as [f|]; [|done].
  by intros ->.
Qed.

Lemma ini_content_None w p :
  ini_content w p = None ↔ ∃ f, files w !! p = Some f ∧ as_ini f = None.
Proof.
  unfold ini_content. destruct (files w !! p) as [f|].
  - split; [by exists f|]. by intros (? & [= <-] & ?).
  - split; [done|]. by intros (? & ? & ?).
Qed.

(** [_save_api_key], once the destination is known. *)
Lemma save_api_key_run url api_key configpaths p w wd :
  config_destination configpaths w = (Ok p, wd) →
  _save_api_key url api_key configpaths w
  = match ini_content wd p with
    | Some old =>
        (Ok tt,
         snd (print ("API key written to " +:+ p)
                (snd (IniFile.write
                        (with_api_key old (_parse_hostname url) api_key)
                        p wd))))
    | None => (Raise (ParsingError p), wd)
    end.
Proof.
  intros Hdest. unfold _save_api_key. unfold mbind at 1, M_bind.
  rewrite Hdest, run_ask.
  destruct (ini_content wd p) as [old|] eqn:Hold.
  - destruct (read_one _ _ _ Hold) as [read_ok Hread].
    rewrite Hread, run_lift_ok.
    pose proof (set_api_key old (_parse_hostname url) api_key) as Hset.
    destruct (if negb (bool_decide
                         (_parse_hostname url ∈ ConfigParser.sections old))
              then ConfigParser.add_section old (_parse_hostname url)
              else Ok old) as [c1|e]; [|done].
    cbn [mbind res_bind] in Hset. by rewrite run_lift_ok, Hset, run_lift_ok.
  - by rewrite (read_one_malformed _ _ Hold), run_lift_raise.
Qed.

Lemma with_api_key_own c host api_key :
  own_option (with_api_key c host api_key) host "api_key"
  = Some (PyStr.strip api_key).
Proof.
  unfold own_option, with_api_key. cbn [ConfigParser.sects].
  rewrite lookup_insert_eq. cbn. by rewrite lookup_insert_eq.
Qed.

Lemma own_option_get c section v :
  own_option c section "api_key" = Some v →
  ConfigParser.get c section "api_key" = Ok v.
Proof.
  unfold own_option, ConfigParser.get.
  change (ConfigParser.optionxform "api_key") with "api_key".
  destruct (ConfigParser.sects c !! section) as [opts|]; [|done]. cbn.
  intros Hv. by rewrite (lookup_union_Some_l _ _ _ _ Hv).
Qed.

Lemma default_bugzillarc_paths_differ w :
  xdgpath w "bugzillarc" "config" ≠ homepath w "bugzillarc".
Proof.
  rewrite xdgpath_parts, homepath_parts, !str_app_assoc.
  intros Heq%str_app_inv_head. discriminate Heq.
Qed.

End api_key_default.





(** ** [_parse_hostname] on plain URLs *)

Section plain_urls.

Implicit Types (s h rest url : string) (c : ascii).

Lemma break_none c s : PyStr.contains c s = false → PyStr.break c s = None.
Proof.
  induction s as [|a s IH]; [done|]. simpl.
  intros [Ha Hs]%orb_false_elim. by rewrite Ha, IH.
Qed.

Lemma break_first c s t :
  PyStr.contains c s = false →
  PyStr.break c (s +:+ String c t) = Some (s, t).
Proof.
  intros Hs. induction s as [|a s IH].
  - rewrite str_app_nil_l. simpl. by rewrite Ascii.eqb_refl.
  - rewrite str_app_cons. simpl in *.
    apply orb_false_elim in Hs as [Ha Hs]. by rewrite Ha, IH.
Qed.

(** A string whose characters are all outside a set has none of the
    characters of the set. *)
Lemma all_outside c set s :
  PyStr.contains c set = true →
  PyStr.all (λ a, negb (PyStr.contains a set)) s = true →
  PyStr.contains c s = false.
Proof.
  intros Hc. induction s as [|a s IH]; [done|]. simpl.
  intros [Ha Hs]%andb_prop. rewrite IH by done.
  destruct (Ascii.eqb a c) eqn:Heq; [|done].
  apply Ascii.eqb_eq in Heq as ->. by rewrite Hc in Ha.
Qed.

Lemma all_weaken (f g : ascii → bool) s :
  (∀ a, f a = true → g a = true) →
  PyStr.all f s = true → PyStr.all g s = true.
Proof.
  intros Hfg. induction s as [|a s IH]; [done|]. simpl.
  intros [Ha Hs]%andb_prop. by rewrite (Hfg _ Ha), IH.
Qed.

Lemma scheme_without_colon s :
  PyStr.all Url.scheme_char s = true → PyStr.contains ":" s = false.
Proof.
  induction s as [|a s IH]; [done|]. simpl.
  intros [Ha Hs]%andb_prop. rewrite IH by done.
  destruct (Ascii.eqb a ":") eqn:Heq; [|done].
  apply Ascii.eqb_eq in Heq as ->. done.
Qed.

Lemma span_netloc_host h rest :
  PyStr.all (λ c, negb (PyStr.contains c "/?#")) h = true →
  url_tail rest →
  Url.span_netloc (h +:+ rest) = (h, rest).
Proof.
  intros Hh Hrest. induction h as [|a h IH].
  - rewrite str_app_nil_l. destruct rest as [|c rest]; [done|].
    cbn [Url.span_netloc]. cbn [url_tail] in Hrest. by rewrite Hrest.
  - rewrite str_app_cons. cbn [Url.span_netloc]. cbn [PyStr.all] in Hh.
    apply andb_prop in Hh as [Ha Hh]. apply negb_true_iff in Ha.
    by rewrite Ha, IH.
Qed.

Lemma tail_char_splits c :
  PyStr.contains c "/?#" = true → PyStr.contains c ":/?#;" = true.
Proof.
  cbn [PyStr.contains].
  destruct (Ascii.eqb ":" c), (Ascii.eqb "/" c), (Ascii.eqb "?" c),
    (Ascii.eqb "#" c); cbn [orb]; done.
Qed.

End plain_urls.


